(** * resourcepack-server: the pack manager, embedded and verified

    A shallow embedding of [packs/manager.go] (type [PacksManager] and its
    methods) together with the parts of the Go standard library it calls.
    The operating system is an explicit record of oracles ([OS]); Go's
    [map[string]*ResourcePack] is a [gmap string ResourcePack]; [time.Time]
    and [time.Duration] are integers counting nanoseconds; the zap logger is
    the list of entries written so far. *)

From Stdlib Require Import ZArith String Ascii List Permutation Sorted Lia Floats.
From stdpp Require Import gmap strings list fin_maps pretty relations.

#[local] Set Warnings "-register-all".
#[local] Open Scope Z_scope.

(** ** Errors and fallible results *)

(** Go's [error] values: an error handed back by the operating system or a
    library, or one wrapped by [fmt.Errorf("...: %w", err)]. *)
Inductive error : Type :=
  | OSError (what : string)
  | Wrapped (msg : string) (cause : error).

Inductive result (A : Type) : Type :=
  | Ok (a : A)
  | Err (e : error).
Arguments Ok {A} a.
Arguments Err {A} e.

Definition rbind {A B : Type} (r : result A) (k : A -> result B) : result B :=
  match r with
  | Ok a => k a
  | Err e => Err e
  end.

Notation "'try' x <- r ; k" := (rbind r (fun x => k))
  (at level 10, x name, r at level 100, k at level 200).

Definition is_Ok {A : Type} (r : result A) : bool :=
  match r with Ok _ => true | Err _ => false end.

(** ** Time *)

(** [time.Time] as nanoseconds since the Unix epoch, [time.Duration] as a
    signed 64-bit count of nanoseconds. *)
Definition Time := Z.
Definition Duration := Z.

Module time.
Definition Nanosecond : Duration := 1.
Definition Millisecond : Duration := 1000000.
Definition Second : Duration := 1000000000.
Definition minDuration : Duration := - 2 ^ 63.
Definition maxDuration : Duration := 2 ^ 63 - 1.

(** [t.Sub(u)]: the difference, saturated to the range of [Duration]. *)
Definition Sub (t u : Time) : Duration :=
  Z.max minDuration (Z.min maxDuration (t - u)).

(** [time.Since(t)] is [time.Now().Sub(t)]. *)
Definition Since (now t : Time) : Duration := Sub now t.

(** [t.Unix()]: whole seconds since the epoch. *)
Definition Unix (t : Time) : Z := t / Second.

(** The zero [time.Time], January 1 of year 1. *)
Definition zero : Time := -62135596800 * Second.
End time.

(** ** [strings] and [fmt] *)

Module strings.
(** [strings.HasSuffix]: [len(s) >= len(suffix) && s[len(s)-len(suffix):] == suffix]. *)
Definition HasSuffix (s suffix : string) : bool :=
  (String.length suffix <=? String.length s)%nat &&
  String.eqb
    (substring (String.length s - String.length suffix) (String.length suffix) s)
    suffix.

(** [strings.TrimSuffix]. *)
Definition TrimSuffix (s suffix : string) : string :=
  if HasSuffix s suffix
  then substring 0 (String.length s - String.length suffix) s
  else s.

(** [strings.Join]. *)
Definition Join (elems : list string) (sep : string) : string :=
  String.concat sep elems.
End strings.

Module fmt.
(** The verb [%d] applied to an integer. *)
Definition d (n : Z) : string := pretty n.

Definition hexdigit (n : N) : ascii :=
  ascii_of_N (if (n <? 10)%N then 48 + n else 87 + n)%N.

(** The verb [%x] applied to a byte string: two lower-case hexadecimal
    digits per byte. *)
Fixpoint x (s : string) : string :=
  match s with
  | EmptyString => EmptyString
  | String c s' =>
      String (hexdigit (N_of_ascii c / 16)) (String (hexdigit (N_of_ascii c mod 16)) (x s'))
  end.
End fmt.

(** ** [path/filepath] on a Unix system *)

Module filepath.
Definition is_sep (c : ascii) : bool := Ascii.eqb c "/".

(** The path elements between separators, as [strings.Split(path, "/")]. *)
Fixpoint elements (path : string) : list string :=
  match path with
  | EmptyString => [EmptyString]
  | String c rest =>
      if is_sep c then EmptyString :: elements rest
      else match elements rest with
           | [] => [String c EmptyString]
           | e :: es => String c e :: es
           end
  end.

Definition rooted (path : string) : bool :=
  match path with
  | String c _ => is_sep c
  | EmptyString => false
  end.

(** One step of [Clean]'s loop; [out] holds the elements written so far,
    most recent first. *)
Definition clean_step (is_rooted : bool) (out : list string) (e : string) : list string :=
  if String.eqb e "" then out
  else if String.eqb e "." then out
  else if String.eqb e ".." then
    match out with
    | top :: below =>
        if String.eqb top ".." then e :: out else below
    | [] => if is_rooted then out else [e]
    end
  else e :: out.

(** [filepath.Clean]: drop empty and [.] elements, resolve [..] against the
    element before it, keep a leading [/], and turn the empty result into
    [.]. *)
Definition Clean (path : string) : string :=
  let out := fold_left (clean_step (rooted path)) (elements path) [] in
  let body := String.concat "/" (rev out) in
  if rooted path then "/" +:+ body
  else if String.eqb body "" then "." else body.

(** [filepath.Join] of two elements. *)
Definition Join (a b : string) : string :=
  if negb (String.eqb a "") then Clean (a +:+ "/" +:+ b)
  else if negb (String.eqb b "") then Clean b
  else "".

Fixpoint strip_trailing_seps (rev_path : list ascii) : list ascii :=
  match rev_path with
  | c :: rest => if is_sep c then strip_trailing_seps rest else rev_path
  | [] => []
  end.

Fixpoint last_element (rev_path : list ascii) : list ascii :=
  match rev_path with
  | c :: rest => if is_sep c then [] else c :: last_element rest
  | [] => []
  end.

(** [filepath.Base]: the last element of the path, after removing trailing
    separators; [.] for the empty path and [/] for a path of separators. *)
Definition Base (path : string) : string :=
  if String.eqb path "" then "."
  else
    let stripped := strip_trailing_seps (rev (list_ascii_of_string path)) in
    let base := string_of_list_ascii (rev (last_element stripped)) in
    if String.eqb base "" then "/" else base.
End filepath.

(** ** JSON values, as [encoding/json] decodes them into [interface{}] *)

Inductive JValue : Type :=
  | JNull
  | JBool (b : bool)
  | JNumber (f : float)
  | JString (s : string)
  | JArray (l : list JValue)
  | JObject (m : gmap string JValue).

(** The conversion [int(f)] of a [float64]: truncation toward zero; outside
    the range of a 64-bit [int] (and for NaN) the amd64 result [-2^63]. *)
Definition float64_to_int (f : float) : Z :=
  match Prim2SF f with
  | S754_zero _ => 0
  | S754_finite sign m e =>
      let magnitude := if 0 <=? e then Z.pos m * 2 ^ e else Z.pos m / 2 ^ (- e) in
      let v := if sign then - magnitude else magnitude in
      if (- 2 ^ 63 <=? v) && (v <? 2 ^ 63) then v else - 2 ^ 63
  | _ => - 2 ^ 63
  end.

(** ** The operating system *)

(** [os.FileInfo]. *)
Record FileInfo : Type := {
  fi_Name : string;
  fi_Size : Z;
  fi_ModTime : Time;
  fi_IsDir : bool;
}.

(** [os.DirEntry]. *)
Record DirEntry : Type := {
  de_Name : string;
  de_IsDir : bool;
}.

(** An open file or archive member: what reading it to the end yields. *)
Record Reader : Type := {
  ReadAll : result string;
}.

(** [zip.File]: a member of an opened archive. *)
Record ZipFile : Type := {
  zf_Name : string;
  zf_Open : result Reader;
}.

(** One call that [filepath.Walk] makes to its callback. *)
Record Visit : Type := {
  v_path : string;
  v_info : FileInfo;
  v_err : option error;
}.

(** What the operating system answers to each call the manager makes. *)
Record OS : Type := {
  os_Stat : string -> result FileInfo;
  os_ReadDir : string -> result (list DirEntry);
  os_ReadFile : string -> result string;
  os_Open : string -> result Reader;
  os_Create : string -> option error;
  os_MkdirAll : string -> option error;
  os_TempDir : string;
  zip_OpenReader : string -> result (list ZipFile);
  zip_Create : string -> option error;
  zip_Write : string -> string -> option error;
  fsnotify_NewWatcher : option error;
  fsnotify_Add : string -> option error;
  walk_visits : string -> list Visit;
}.

(** [filepath.Walk(root, fn)]: the callback runs on each visit in turn and the
    walk stops at the first error it returns. *)
Fixpoint walk_from {S : Type} (fn : S -> Visit -> result S) (visits : list Visit) (s : S)
  : result S :=
  match visits with
  | [] => Ok s
  | v :: rest =>
      match fn s v with
      | Ok s' => walk_from fn rest s'
      | Err e => Err e
      end
  end.

Definition filepath_Walk {S : Type} (os : OS) (root : string)
    (fn : S -> Visit -> result S) (s : S) : result S :=
  walk_from fn (walk_visits os root) s.

(** ** The zap logger *)

Inductive Level : Type := InfoLevel | ErrorLevel.

Inductive Field : Type :=
  | zap_String (key val : string)
  | zap_Strings (key : string) (vals : list string)
  | zap_Int (key : string) (n : Z)
  | zap_Error (e : error).

Record LogEntry : Type := {
  log_level : Level;
  log_msg : string;
  log_fields : list Field;
}.

(** ** Data of the pack manager *)

Record ResourcePack : Type := {
  Name : string;
  Path : string;
  Description : string;
  PackFormat : Z;
  Size : Z;
  Hash : string;
  LastModified : Time;
  IsDirectory : bool;
}.

Record PackInfo : Type := {
  pi_Description : string;
  pi_PackFormat : Z;
}.

Record Config : Type := {
  Directory : string;
  FileMonitor : bool;
  FileMonitorInterval : Duration;
  ScanCooldown : Duration;
}.

Record PacksManager : Type := {
  config : Config;
  logger : list LogEntry;
  packsDirectory : string;
  tempDir : string;
  packs : gmap string ResourcePack;
  lastScanTime : Time;
  scanCooldown : Duration;
}.

Definition set_packs (pm : PacksManager) (m : gmap string ResourcePack) : PacksManager :=
  {| config := config pm; logger := logger pm; packsDirectory := packsDirectory pm;
     tempDir := tempDir pm; packs := m; lastScanTime := lastScanTime pm;
     scanCooldown := scanCooldown pm |}.

Definition set_lastScanTime (pm : PacksManager) (t : Time) : PacksManager :=
  {| config := config pm; logger := logger pm; packsDirectory := packsDirectory pm;
     tempDir := tempDir pm; packs := packs pm; lastScanTime := t;
     scanCooldown := scanCooldown pm |}.

(** [pm.logger.Info(msg, fields...)] and [pm.logger.Error(msg, fields...)]:
    the entry is appended to what the logger has written. *)
Definition log (lvl : Level) (msg : string) (fields : list Field) (pm : PacksManager)
  : PacksManager :=
  {| config := config pm;
     logger := logger pm ++ [{| log_level := lvl; log_msg := msg; log_fields := fields |}];
     packsDirectory := packsDirectory pm; tempDir := tempDir pm; packs := packs pm;
     lastScanTime := lastScanTime pm; scanCooldown := scanCooldown pm |}.

(** [pm.packs[pack.Name] = pack]. *)
Definition store (pack : ResourcePack) (pm : PacksManager) : PacksManager :=
  set_packs pm (<[Name pack := pack]> (packs pm)).

(** Arithmetic on Go's [int64] wraps around. *)
Definition wrap64 (n : Z) : Z := (n + 2 ^ 63) mod 2 ^ 64 - 2 ^ 63.

Definition newline : string := String (ascii_of_nat 10) EmptyString.

(** ** [sort.Strings] *)

(** [sort.Strings] puts a slice in increasing byte-wise order.  The order is
    total and two strings that compare equal are the same string, so the
    result does not depend on the algorithm; insertion sort stands for it
    (see [sort_Strings_sorted], [sort_Strings_perm] and [sorted_perm_unique]). *)
Fixpoint insert_sorted (s : string) (l : list string) : list string :=
  match l with
  | [] => [s]
  | h :: t => if String.leb s h then s :: l else h :: insert_sorted s t
  end.

Fixpoint sort_Strings (l : list string) : list string :=
  match l with
  | [] => []
  | h :: t => insert_sorted h (sort_Strings t)
  end.

(** ** The methods of [PacksManager] *)

(** Library functions the manager calls and this development leaves open:
    [json.Unmarshal] into a [map[string]interface{}] (the JSON text [null]
    leaves the map nil and yields no error, which reads as the empty map),
    [md5.Sum] (the 16 bytes of the digest) and [filepath.Rel] (its string
    result; the manager discards its error). *)
Class GoLib : Type := {
  json_Unmarshal : string -> result (gmap string JValue);
  md5_Sum : string -> string;
  filepath_Rel : string -> string -> string;
}.

Section Manager.

Context `{GoLib}.

Definition parsePackMcmeta (content : string) : option PackInfo :=
  match json_Unmarshal content with
  | Err _ => None
  | Ok data =>
      match data !! "pack" with
      | Some (JObject pack) =>
          let description :=
            match pack !! "description" with
            | Some (JString desc) => desc
            | _ => ""
            end in
          let packFormat :=
            match pack !! "pack_format" with
            | Some (JNumber format) => float64_to_int format
            | _ => 22
            end in
          Some {| pi_Description := description; pi_PackFormat := packFormat |}
      | _ => None
      end
  end.

Definition isResourcePackDirectory (os : OS) (dirPath : string) : bool :=
  let packMcmetaPath := filepath.Join dirPath "pack.mcmeta" in
  is_Ok (os_Stat os packMcmetaPath).

Definition calculateDirectorySize (os : OS) (dirPath : string) : result Z :=
  filepath_Walk os dirPath
    (fun totalSize v =>
       match v_err v with
       | Some err => Err err
       | None =>
           if negb (fi_IsDir (v_info v))
           then Ok (wrap64 (totalSize + fi_Size (v_info v)))
           else Ok totalSize
       end)
    0.

(** The line that [calculateDirectoryHash] records for a file. *)
Definition fileInfoLine (dirPath : string) (v : Visit) : string :=
  let relPath := filepath_Rel dirPath (v_path v) in
  relPath +:+ ":" +:+ fmt.d (time.Unix (fi_ModTime (v_info v)))
          +:+ ":" +:+ fmt.d (fi_Size (v_info v)).

Definition calculateDirectoryHash (os : OS) (dirPath : string) : result string :=
  try fileInfos <-
    filepath_Walk os dirPath
      (fun fileInfos v =>
         match v_err v with
         | Some err => Err err
         | None =>
             if negb (fi_IsDir (v_info v))
             then Ok (fileInfos ++ [fileInfoLine dirPath v])
             else Ok fileInfos
         end)
      [];
  let sorted := sort_Strings fileInfos in
  let content := strings.Join sorted newline in
  let hash := md5_Sum content in
  Ok (fmt.x hash).

Definition calculateFileHash (os : OS) (filePath : string) : result string :=
  try file <- os_Open os filePath;
  try content <- ReadAll file;
  Ok (fmt.x (md5_Sum content)).

(** The loop of [loadZipPack] over the members of the archive: the first
    member named [pack.mcmeta] decides, and the loop ends there. *)
Fixpoint zipManifest (files : list ZipFile) (description : string) (packFormat : Z)
  : string * Z :=
  match files with
  | [] => (description, packFormat)
  | file :: rest =>
      if String.eqb (zf_Name file) "pack.mcmeta" then
        match zf_Open file with
        | Ok rc =>
            match ReadAll rc with
            | Ok content =>
                match parsePackMcmeta content with
                | Some packInfo => (pi_Description packInfo, pi_PackFormat packInfo)
                | None => (description, packFormat)
                end
            | Err _ => (description, packFormat)
            end
        | Err _ => (description, packFormat)
        end
      else zipManifest rest description packFormat
  end.

Definition loadZipPack (os : OS) (packPath : string) : result ResourcePack :=
  try stat <- os_Stat os packPath;
  let name := strings.TrimSuffix (filepath.Base packPath) ".zip" in
  let description := "Resource Pack: " +:+ name in
  let packFormat := 22 in
  let '(description, packFormat) :=
    match zip_OpenReader os packPath with
    | Ok files => zipManifest files description packFormat
    | Err _ => (description, packFormat)
    end in
  try hash <- calculateFileHash os packPath;
  Ok {| Name := name; Path := packPath; Description := description;
        PackFormat := packFormat; Size := fi_Size stat; Hash := hash;
        LastModified := fi_ModTime stat; IsDirectory := false |}.

Definition loadDirectoryPack (os : OS) (dirPath : string) : result ResourcePack :=
  let name := filepath.Base dirPath in
  let description := "Resource Pack: " +:+ name in
  let packFormat := 22 in
  let packMcmetaPath := filepath.Join dirPath "pack.mcmeta" in
  let '(description, packFormat) :=
    match os_ReadFile os packMcmetaPath with
    | Ok content =>
        match parsePackMcmeta content with
        | Some packInfo => (pi_Description packInfo, pi_PackFormat packInfo)
        | None => (description, packFormat)
        end
    | Err _ => (description, packFormat)
    end in
  try size <- calculateDirectorySize os dirPath;
  try hash <- calculateDirectoryHash os dirPath;
  try stat <- os_Stat os dirPath;
  Ok {| Name := name; Path := dirPath; Description := description;
        PackFormat := packFormat; Size := size; Hash := hash;
        LastModified := fi_ModTime stat; IsDirectory := true |}.

(** [if err == nil && pack != nil { pm.packs[pack.Name] = pack; pm.logger.Info(msg, ...) }] *)
Definition keep (msg : string) (loaded : result ResourcePack) (pm : PacksManager)
  : PacksManager :=
  match loaded with
  | Ok pack => log InfoLevel msg [zap_String "name" (Name pack)] (store pack pm)
  | Err _ => pm
  end.

(** The body of the loop of [scanPacks] over the entries of the directory. *)
Definition scanEntry (os : OS) (pm : PacksManager) (entry : DirEntry) : PacksManager :=
  let entryPath := filepath.Join (packsDirectory pm) (de_Name entry) in
  if de_IsDir entry then
    if isResourcePackDirectory os entryPath
    then keep "发现子目录资源包" (loadDirectoryPack os entryPath) pm
    else pm
  else if strings.HasSuffix (de_Name entry) ".zip"
  then keep "发现ZIP资源包" (loadZipPack os entryPath) pm
  else pm.

(** [scanPacks]; [now] is what [time.Now()] returns when the scan ends.  The
    method runs under [pm.mu.Lock()], which this sequential reading leaves
    implicit. *)
Definition scanPacks (os : OS) (now : Time) (pm : PacksManager)
  : PacksManager * option error :=
  let oldPacks : gset string := dom (packs pm) in
  let pm := set_packs pm ∅ in
  let pm := log InfoLevel "开始扫描资源包目录"
              [zap_String "directory" (packsDirectory pm)] pm in
  let pm :=
    if isResourcePackDirectory os (packsDirectory pm)
    then keep "发现根目录资源包" (loadDirectoryPack os (packsDirectory pm)) pm
    else pm in
  match os_ReadDir os (packsDirectory pm) with
  | Err err => (pm, Some (Wrapped "读取目录失败" err))
  | Ok entries =>
      let pm := fold_left (scanEntry os) entries pm in
      let newPacks : gset string := dom (packs pm) in
      let added := elements (newPacks ∖ oldPacks) in
      let removed := elements (oldPacks ∖ newPacks) in
      let pm :=
        if (0 <? Z.of_nat (length added))
        then log InfoLevel "新增资源包" [zap_Strings "names" added] pm else pm in
      let pm :=
        if (0 <? Z.of_nat (length removed))
        then log InfoLevel "移除资源包" [zap_Strings "names" removed] pm else pm in
      let pm := log InfoLevel "扫描完成" [zap_Int "count" (Z.of_nat (size (packs pm)))] pm in
      (set_lastScanTime pm now, None)
  end.

Definition GetPack (pm : PacksManager) (name : string) : option ResourcePack :=
  packs pm !! name.

(** [GetAllPacks] collects the values of the map; Go leaves the order of a
    [range] over a map open, here it is the order of [map_to_list]. *)
Definition GetAllPacks (pm : PacksManager) : list ResourcePack :=
  (map_to_list (packs pm)).*2.

Definition GetPackHash (pm : PacksManager) (name : string) : string :=
  match GetPack pm name with
  | Some pack => Hash pack
  | None => ""
  end.

Definition GetPacksDirectory (pm : PacksManager) : string := packsDirectory pm.

Definition RescanPacks (os : OS) (now : Time) (pm : PacksManager)
  : PacksManager * option error :=
  scanPacks os now pm.

(** [fsnotify.Event]. *)
Record Event : Type := {
  ev_Name : string;
  ev_Op : Z;
}.

(** [handleFileEvent]; [now] is the clock when the method starts and
    [scanTakes] the time that passes between the end of [time.Sleep] and the
    end of the scan.  The result is the manager and the clock when the method
    returns. *)
Definition handleFileEvent (os : OS) (event : Event) (now : Time) (scanTakes : Duration)
    (pm : PacksManager) : PacksManager * Time :=
  if time.Since now (lastScanTime pm) <? scanCooldown pm then (pm, now)
  else
    let now := now + 500 * time.Millisecond in
    let '(pm, err) := scanPacks os (now + scanTakes) pm in
    let pm :=
      match err with
      | Some err => log ErrorLevel "文件变化后扫描失败" [zap_Error err] pm
      | None => pm
      end in
    (pm, now + scanTakes).

(** What the goroutine of [startFileMonitoring] receives in its [select]. *)
Inductive Received : Type :=
  | RecvEvent (event : Event) (ok : bool)
  | RecvError (err : error) (ok : bool)
  | RecvStop.

(** A message for that goroutine: when it becomes available, and the state
    of the disk and the duration of the scan should it start one. *)
Record Delivery : Type := {
  d_at : Time;
  d_what : Received;
  d_os : OS;
  d_scanTakes : Duration;
}.

(** The goroutine of [startFileMonitoring]: it takes the messages one at a
    time, each as soon as it is there and the goroutine is free. *)
Fixpoint monitorLoop (clock : Time) (inbox : list Delivery) (pm : PacksManager)
  : PacksManager * Time :=
  match inbox with
  | [] => (pm, clock)
  | dl :: rest =>
      let clock := Z.max clock (d_at dl) in
      match d_what dl with
      | RecvEvent event true =>
          let '(pm, clock) := handleFileEvent (d_os dl) event clock (d_scanTakes dl) pm in
          monitorLoop clock rest pm
      | RecvEvent _ false => (pm, clock)
      | RecvError err true =>
          monitorLoop clock rest (log ErrorLevel "文件监控错误" [zap_Error err] pm)
      | RecvError _ false => (pm, clock)
      | RecvStop => (pm, clock)
      end
  end.

Definition startFileMonitoring (os : OS) (pm : PacksManager) : PacksManager * option error :=
  match fsnotify_NewWatcher os with
  | Some err => (pm, Some err)
  | None =>
      match fsnotify_Add os (packsDirectory pm) with
      | Some err => (pm, Some err)
      | None =>
          (log InfoLevel "文件监控已启动" [zap_String "directory" (packsDirectory pm)] pm,
           None)
      end
  end.

(** [CreateZipFromDirectory]; [now] is what [time.Now()] returns.  The walk
    carries the members written to the archive so far. *)
Definition CreateZipFromDirectory (os : OS) (now : Time) (dirPath packName : string)
    (pm : PacksManager) : PacksManager * result string :=
  let zipPath :=
    filepath.Join (tempDir pm) (packName +:+ "_" +:+ fmt.d (time.Unix now) +:+ ".zip") in
  match os_Create os zipPath with
  | Some err => (pm, Err err)
  | None =>
      let written :=
        filepath_Walk os dirPath
          (fun (archive : list (string * string)) v =>
             match v_err v with
             | Some err => Err err
             | None =>
                 if fi_IsDir (v_info v) then Ok archive
                 else
                   let relPath := filepath_Rel dirPath (v_path v) in
                   try file <- os_Open os (v_path v);
                   match zip_Create os relPath with
                   | Some err => Err err
                   | None =>
                       try content <- ReadAll file;
                       match zip_Write os relPath content with
                       | Some err => Err err
                       | None => Ok (archive ++ [(relPath, content)])
                       end
                   end
             end)
          [] in
      match written with
      | Err err => (pm, Err err)
      | Ok _ =>
          (log InfoLevel "已创建临时zip文件" [zap_String "path" zipPath] pm, Ok zipPath)
      end
  end.

Definition NewPacksManager (os : OS) (now : Time) (config : Config) (logger : list LogEntry)
  : result PacksManager :=
  let pm := {| config := config; logger := logger; packsDirectory := Directory config;
               tempDir := os_TempDir os +:+ "/resourcepack_server"; packs := ∅;
               lastScanTime := time.zero; scanCooldown := ScanCooldown config |} in
  match os_MkdirAll os (tempDir pm) with
  | Some err => Err (Wrapped "创建临时目录失败" err)
  | None =>
      match os_MkdirAll os (packsDirectory pm) with
      | Some err => Err (Wrapped "创建资源包目录失败" err)
      | None =>
          let '(pm, err) := scanPacks os now pm in
          let pm :=
            match err with
            | Some err => log ErrorLevel "初始扫描资源包失败" [zap_Error err] pm
            | None => pm
            end in
          let pm :=
            if FileMonitor config then
              match startFileMonitoring os pm with
              | (pm, Some err) => log ErrorLevel "启动文件监控失败" [zap_Error err] pm
              | (pm, None) => pm
              end
            else pm in
          Ok pm
      end
  end.

End Manager.

(** The number of scans begun, read off the log: [scanPacks] writes one
    entry with this message each time it starts. *)
Definition scansStarted (entries : list LogEntry) : nat :=
  length (List.filter (fun e => String.eqb (log_msg e) "开始扫描资源包目录") entries).

(** [rescanPacksHandler] of the HTTP server: it runs [RescanPacks] in a
    goroutine of its own, logs a failure, and answers at once.  Only the
    work of the goroutine is kept here. *)
Definition rescanPacksHandler `{GoLib} (os : OS) (now : Time) (pm : PacksManager)
  : PacksManager :=
  let '(pm, err) := RescanPacks os now pm in
  match err with
  | Some err => log ErrorLevel "重新扫描失败" [zap_Error err] pm
  | None => pm
  end.

(** ** [crypto/md5] *)

(** MD5 as RFC 1321 defines it, on 32-bit words kept in [Z].  The manager
    is verified for any digest function (see [GoLib]); this one is used to
    run it. *)
Module md5.
Definition K : list Z :=
  [3614090360; 3905402710; 606105819; 3250441966; 4118548399; 1200080426; 2821735955; 4249261313;
   1770035416; 2336552879; 4294925233; 2304563134; 1804603682; 4254626195; 2792965006; 1236535329;
   4129170786; 3225465664; 643717713; 3921069994; 3593408605; 38016083; 3634488961; 3889429448;
   568446438; 3275163606; 4107603335; 1163531501; 2850285829; 4243563512; 1735328473; 2368359562;
   4294588738; 2272392833; 1839030562; 4259657740; 2763975236; 1272893353; 4139469664; 3200236656;
   681279174; 3936430074; 3572445317; 76029189; 3654602809; 3873151461; 530742520; 3299628645;
   4096336452; 1126891415; 2878612391; 4237533241; 1700485571; 2399980690; 4293915773; 2240044497;
   1873313359; 4264355552; 2734768916; 1309151649; 4149444226; 3174756917; 718787259; 3951481745].

Definition shifts : list Z :=
  [7; 12; 17; 22; 7; 12; 17; 22; 7; 12; 17; 22; 7; 12; 17; 22;
   5; 9; 14; 20; 5; 9; 14; 20; 5; 9; 14; 20; 5; 9; 14; 20;
   4; 11; 16; 23; 4; 11; 16; 23; 4; 11; 16; 23; 4; 11; 16; 23;
   6; 10; 15; 21; 6; 10; 15; 21; 6; 10; 15; 21; 6; 10; 15; 21].

Definition word (x : Z) : Z := x mod 2 ^ 32.

Definition complement (x : Z) : Z := Z.lxor x (2 ^ 32 - 1).

Definition rotl (x c : Z) : Z := word (Z.lor (Z.shiftl x c) (Z.shiftr x (32 - c))).

Definition round (M : list Z) (st : Z * Z * Z * Z) (i : nat) : Z * Z * Z * Z :=
  let '(a, b, c, d) := st in
  let '(f, g) :=
    if (i <? 16)%nat then (Z.lor (Z.land b c) (Z.land (complement b) d), i)
    else if (i <? 32)%nat then
      (Z.lor (Z.land d b) (Z.land (complement d) c), ((5 * i + 1) mod 16)%nat)
    else if (i <? 48)%nat then (Z.lxor (Z.lxor b c) d, ((3 * i + 5) mod 16)%nat)
    else (Z.lxor c (Z.lor b (complement d)), ((7 * i) mod 16)%nat) in
  let f := word (f + a + nth i K 0 + nth g M 0) in
  (d, word (b + rotl f (nth i shifts 0)), b, c).

Definition block (st : Z * Z * Z * Z) (M : list Z) : Z * Z * Z * Z :=
  let '(a0, b0, c0, d0) := st in
  let '(a, b, c, d) := fold_left (round M) (seq 0 64) st in
  (word (a0 + a), word (b0 + b), word (c0 + c), word (d0 + d)).

Fixpoint chunks {A : Type} (fuel n : nat) (l : list A) : list (list A) :=
  match fuel, l with
  | O, _ | _, [] => []
  | S fuel, _ => firstn n l :: chunks fuel n (skipn n l)
  end.

Definition bytes_le (width : nat) (x : Z) : list Z :=
  List.map (fun i => Z.shiftr x (8 * Z.of_nat i) mod 256) (seq 0 width).

Definition word_le (bytes : list Z) : Z :=
  fold_right (fun b acc => b + 256 * acc) 0 bytes.

Definition pad (msg : list Z) : list Z :=
  let len := length msg in
  msg ++ [128] ++ repeat 0 ((55 + 64 - len mod 64) mod 64)%nat
      ++ bytes_le 8 (8 * Z.of_nat len).

(** [md5.Sum]: the 16 bytes of the digest. *)
Definition Sum (data : string) : string :=
  let bytes := List.map (fun c => Z.of_N (N_of_ascii c)) (list_ascii_of_string data) in
  let padded := pad bytes in
  let words := List.map word_le (chunks (length padded) 4 padded) in
  let blocks := chunks (length words) 16 words in
  let '(a, b, c, d) :=
    fold_left block blocks (1732584193, 4023233417, 2562383102, 271733878) in
  string_of_list_ascii
    (List.map (fun b => ascii_of_N (Z.to_N b))
       (bytes_le 4 a ++ bytes_le 4 b ++ bytes_le 4 c ++ bytes_le 4 d)).
End md5.

(** * Reading a scan *)

Definition to_option {A : Type} (r : result A) : option A :=
  match r with Ok a => Some a | Err _ => None end.

Section ScanReading.
Context `{GoLib}.

(** What a scan keeps for the root directory and for one entry of it. *)
Definition rootCandidate (os : OS) (root : string) : option ResourcePack :=
  if isResourcePackDirectory os root then to_option (loadDirectoryPack os root) else None.

Definition entryCandidate (os : OS) (root : string) (entry : DirEntry) : option ResourcePack :=
  let entryPath := filepath.Join root (de_Name entry) in
  if de_IsDir entry then
    if isResourcePackDirectory os entryPath
    then to_option (loadDirectoryPack os entryPath) else None
  else if strings.HasSuffix (de_Name entry) ".zip"
  then to_option (loadZipPack os entryPath) else None.

Definition entriesRead (os : OS) (root : string) : list DirEntry :=
  match os_ReadDir os root with Ok entries => entries | Err _ => [] end.

(** The packs a scan loads, in the order in which it loads them. *)
Definition loadSequence (os : OS) (root : string) : list ResourcePack :=
  match rootCandidate os root with Some p => [p] | None => [] end
  ++ omap (entryCandidate os root) (entriesRead os root).

End ScanReading.

(** The last pack of a sequence that carries a given name. *)
Definition lastNamed (name : string) (l : list ResourcePack) : option ResourcePack :=
  List.find (fun p => String.eqb (Name p) name) (rev l).

Definition isDiscovery (e : LogEntry) : bool :=
  String.eqb (log_msg e) "发现根目录资源包" ||
  String.eqb (log_msg e) "发现子目录资源包" ||
  String.eqb (log_msg e) "发现ZIP资源包".

(** The discoveries a log reports, oldest first. *)
Definition discoveries (entries : list LogEntry) : list LogEntry :=
  List.filter isDiscovery entries.

Definition discoveryOf (p : ResourcePack) : LogEntry :=
  {| log_level := InfoLevel;
     log_msg := if IsDirectory p then "发现子目录资源包" else "发现ZIP资源包";
     log_fields := [zap_String "name" (Name p)] |}.

Definition rootDiscoveryOf (p : ResourcePack) : LogEntry :=
  {| log_level := InfoLevel; log_msg := "发现根目录资源包";
     log_fields := [zap_String "name" (Name p)] |}.

(** The discoveries a scan reports, in the order in which it loads. *)
Definition discoverySequence `{GoLib} (os : OS) (root : string) : list LogEntry :=
  match rootCandidate os root with Some p => [rootDiscoveryOf p] | None => [] end
  ++ List.map discoveryOf (omap (entryCandidate os root) (entriesRead os root)).

(** [pm'] is [pm] but for log entries that report neither a discovery nor
    the start of a scan. *)
Definition quiet (pm pm' : PacksManager) : Prop :=
  packs pm' = packs pm /\ packsDirectory pm' = packsDirectory pm /\
  scanCooldown pm' = scanCooldown pm /\ tempDir pm' = tempDir pm /\
  lastScanTime pm' = lastScanTime pm /\
  discoveries (logger pm') = discoveries (logger pm) /\
  scansStarted (logger pm') = scansStarted (logger pm).

(** The order of loading as the specification words it: the root directory,
    then all subdirectories, then all archive files, each group in the order
    of the enumeration. *)
Definition specLoadSequence `{GoLib} (os : OS) (root : string) : list ResourcePack :=
  match rootCandidate os root with Some p => [p] | None => [] end
  ++ omap (entryCandidate os root) (List.filter de_IsDir (entriesRead os root))
  ++ omap (entryCandidate os root)
       (List.filter (fun e => negb (de_IsDir e)) (entriesRead os root)).

Definition set_gate (pm : PacksManager) (last : Time) (cooldown : Duration) : PacksManager :=
  {| config := config pm; logger := logger pm; packsDirectory := packsDirectory pm;
     tempDir := tempDir pm; packs := packs pm; lastScanTime := last;
     scanCooldown := cooldown |}.

(** * The fingerprint of a tree *)

(** The tuple [(relativePath, modTimeUnix, sizeBytes)] of a visited file. *)
Definition metadata `{GoLib} (dirPath : string) (v : Visit) : string * Z * Z :=
  (filepath_Rel dirPath (v_path v), time.Unix (fi_ModTime (v_info v)), fi_Size (v_info v)).

(** The files among the visits of a walk, in the order of the walk. *)
Definition filesVisited (visits : list Visit) : list Visit :=
  List.filter (fun v => negb (fi_IsDir (v_info v))) visits.

(** Some visit of the walk reports an error. *)
Definition walkFails (visits : list Visit) : bool :=
  existsb (fun v => match v_err v with Some _ => true | None => false end) visits.

(** The callback that [calculateDirectoryHash] hands to [filepath.Walk]. *)
Definition collectLine `{GoLib} (dirPath : string) (fileInfos : list string) (v : Visit)
  : result (list string) :=
  match v_err v with
  | Some err => Err err
  | None =>
      if negb (fi_IsDir (v_info v))
      then Ok (fileInfos ++ [fileInfoLine dirPath v])
      else Ok fileInfos
  end.

(** In increasing byte-wise order. *)
Definition increasing : list string -> Prop :=
  StronglySorted (fun a b => String.leb a b = true).

(** * Paths and listings *)

(** No separator occurs in the string. *)
Fixpoint no_sep (s : string) : bool :=
  match s with
  | EmptyString => true
  | String c rest => negb (filepath.is_sep c) && no_sep rest
  end.

(** A path element that [Clean] keeps where it stands. *)
Definition kept (e : string) : Prop := e <> "" /\ e <> "." /\ e <> "..".

(** The name of a directory entry: one element, none of the special ones. *)
Definition properName (n : string) : Prop := no_sep n = true /\ kept n.

(** What [Clean] writes before the last element of [q +:+ t] when [t] has no
    separator: the cleaned elements of [q] but the last, each followed by a
    separator. *)
Definition cleanPrefix (is_rooted : bool) (q : string) : string :=
  (if is_rooted then "/" else "") +:+
  match rev (fold_left (filepath.clean_step is_rooted) (removelast (filepath.elements q)) []) with
  | [] => ""
  | xs => String.concat "/" xs +:+ "/"
  end.

(** The path at which [CreateZipFromDirectory] writes the archive. *)
Definition zipPathAt (pm : PacksManager) (packName : string) (now : Time) : string :=
  filepath.Join (tempDir pm) (packName +:+ "_" +:+ fmt.d (time.Unix now) +:+ ".zip").

(** [os.ReadDir] returns the entries of a directory sorted by file name; the
    names of a directory are distinct, so the order is strict. *)
Definition sortedByName (entries : list DirEntry) : Prop :=
  StronglySorted (fun a b => String.compare (de_Name a) (de_Name b) = Lt) entries.

Definition properNames (entries : list DirEntry) : Prop :=
  List.Forall (fun e => properName (de_Name e)) entries.

(** The archive has no member named [pack.mcmeta] (or cannot be opened as an
    archive at all). *)
Definition noManifest (os : OS) (packPath : string) : Prop :=
  match zip_OpenReader os packPath with
  | Ok files => List.find (fun f => String.eqb (zf_Name f) "pack.mcmeta") files = None
  | Err _ => True
  end.

(** * Readers running beside a scan

    [scanPacks] holds [pm.mu.Lock()] from its first statement to its return;
    [GetPack] and [GetAllPacks] hold [pm.mu.RLock()].  Here the statements of
    one scan and of any number of readers interleave freely, one statement at
    a time, and the lock is the only thing that orders them. *)

(** [sync.RWMutex]: whether the writer holds it, and how many readers do. *)
Record RWMutex : Type := {
  writing : bool;
  reading : nat;
}.

(** Where the goroutine that runs [scanPacks] stands.  [old] is the local
    [oldPacks]. *)
Inductive ScanCall : Type :=
  | S_start
  | S_reset
  | S_root (old : gset string)
  | S_readdir (old : gset string)
  | S_loop (old : gset string) (rest : list DirEntry)
  | S_unlock (err : option error)
  | S_done (err : option error).

(** Where a goroutine that runs [GetAllPacks] or [GetPack] stands.  A
    [range] over a map yields each key once; [seen] holds the keys yielded so
    far and [out] the slice built from them. *)
Inductive ReadCall : Type :=
  | All_start
  | All_range (seen : gset string) (out : list ResourcePack)
  | All_unlock (out : list ResourcePack)
  | All_done (out : list ResourcePack)
  | Get_start (name : string)
  | Get_read (name : string)
  | Get_unlock (name : string) (found : option ResourcePack)
  | Get_done (name : string) (found : option ResourcePack).

Record System : Type := {
  mu : RWMutex;
  shared : PacksManager;
  scanner : ScanCall;
  readers : list ReadCall;
}.

Section Interleaving.
Context `{GoLib}.

(** The parts of [scanPacks] between which another goroutine may run. *)
Definition scanBegin (pm : PacksManager) : PacksManager :=
  let pm := set_packs pm ∅ in
  log InfoLevel "开始扫描资源包目录" [zap_String "directory" (packsDirectory pm)] pm.

Definition scanRoot (os : OS) (pm : PacksManager) : PacksManager :=
  if isResourcePackDirectory os (packsDirectory pm)
  then keep "发现根目录资源包" (loadDirectoryPack os (packsDirectory pm)) pm
  else pm.

Definition scanEnd (now : Time) (oldPacks : gset string) (pm : PacksManager) : PacksManager :=
  let newPacks : gset string := dom (packs pm) in
  let added := elements (newPacks ∖ oldPacks) in
  let removed := elements (oldPacks ∖ newPacks) in
  let pm :=
    if (0 <? Z.of_nat (length added))
    then log InfoLevel "新增资源包" [zap_Strings "names" added] pm else pm in
  let pm :=
    if (0 <? Z.of_nat (length removed))
    then log InfoLevel "移除资源包" [zap_Strings "names" removed] pm else pm in
  let pm := log InfoLevel "扫描完成" [zap_Int "count" (Z.of_nat (size (packs pm)))] pm in
  set_lastScanTime pm now.

(** One statement of the scan. *)
Inductive scanner_step (os : OS) (now : Time)
  : RWMutex -> PacksManager -> ScanCall -> RWMutex -> PacksManager -> ScanCall -> Prop :=
  | scan_Lock pm :
      scanner_step os now {| writing := false; reading := 0 |} pm S_start
                          {| writing := true; reading := 0 |} pm S_reset
  | scan_reset m pm :
      scanner_step os now m pm S_reset m (scanBegin pm) (S_root (dom (packs pm)))
  | scan_root m pm old :
      scanner_step os now m pm (S_root old) m (scanRoot os pm) (S_readdir old)
  | scan_ReadDir_ok m pm old entries :
      os_ReadDir os (packsDirectory pm) = Ok entries ->
      scanner_step os now m pm (S_readdir old) m pm (S_loop old entries)
  | scan_ReadDir_err m pm old err :
      os_ReadDir os (packsDirectory pm) = Err err ->
      scanner_step os now m pm (S_readdir old) m pm
        (S_unlock (Some (Wrapped "读取目录失败" err)))
  | scan_entry m pm old entry rest :
      scanner_step os now m pm (S_loop old (entry :: rest))
                          m (scanEntry os pm entry) (S_loop old rest)
  | scan_end m pm old :
      scanner_step os now m pm (S_loop old []) m (scanEnd now old pm) (S_unlock None)
  | scan_Unlock n pm err :
      scanner_step os now {| writing := true; reading := n |} pm (S_unlock err)
                          {| writing := false; reading := n |} pm (S_done err).

(** One statement of a reader; it reads the manager and never writes it. *)
Inductive reader_step (pm : PacksManager) : RWMutex -> ReadCall -> RWMutex -> ReadCall -> Prop :=
  | all_RLock n :
      reader_step pm {| writing := false; reading := n |} All_start
                     {| writing := false; reading := S n |} (All_range ∅ [])
  | all_next m seen out name pack :
      name ∉ seen ->
      packs pm !! name = Some pack ->
      reader_step pm m (All_range seen out) m (All_range ({[name]} ∪ seen) (out ++ [pack]))
  | all_end m seen out :
      dom (packs pm) ⊆ seen ->
      reader_step pm m (All_range seen out) m (All_unlock out)
  | all_RUnlock w n out :
      reader_step pm {| writing := w; reading := S n |} (All_unlock out)
                     {| writing := w; reading := n |} (All_done out)
  | get_RLock n name :
      reader_step pm {| writing := false; reading := n |} (Get_start name)
                     {| writing := false; reading := S n |} (Get_read name)
  | get_read m name :
      reader_step pm m (Get_read name) m (Get_unlock name (packs pm !! name))
  | get_RUnlock w n name found :
      reader_step pm {| writing := w; reading := S n |} (Get_unlock name found)
                     {| writing := w; reading := n |} (Get_done name found).

(** One statement of one goroutine. *)
Inductive step (os : OS) (now : Time) : System -> System -> Prop :=
  | step_scanner m pm sc rs m' pm' sc' :
      scanner_step os now m pm sc m' pm' sc' ->
      step os now {| mu := m; shared := pm; scanner := sc; readers := rs |}
                  {| mu := m'; shared := pm'; scanner := sc'; readers := rs |}
  | step_reader m pm sc rs i r m' r' :
      rs !! i = Some r ->
      reader_step pm m r m' r' ->
      step os now {| mu := m; shared := pm; scanner := sc; readers := rs |}
                  {| mu := m'; shared := pm; scanner := sc; readers := <[i := r']> rs |}.

End Interleaving.

Definition notStarted (r : ReadCall) : Prop :=
  match r with
  | All_start | Get_start _ => True
  | _ => False
  end.

(** The system before anyone has run: the lock free, the manager [pm0]. *)
Definition initial (pm0 : PacksManager) (rs : list ReadCall) : System :=
  {| mu := {| writing := false; reading := 0 |}; shared := pm0;
     scanner := S_start; readers := rs |}.

(** The reader holds the read lock. *)
Definition holdsRLock (r : ReadCall) : bool :=
  match r with
  | All_range _ _ | All_unlock _ | Get_read _ | Get_unlock _ _ => true
  | _ => false
  end.

Definition readLocks (rs : list ReadCall) : nat := length (List.filter holdsRLock rs).

(** The scanner holds the write lock. *)
Definition holdsLock (sc : ScanCall) : bool :=
  match sc with
  | S_start | S_done _ => false
  | _ => true
  end.

(** What a reader has is a view of the index [m]: of all of it once its
    result is built, of the keys seen while it ranges. *)
Definition viewOf (m : gmap string ResourcePack) (now_shared : gmap string ResourcePack)
    (r : ReadCall) : Prop :=
  match r with
  | All_start | Get_start _ => True
  | All_range seen out =>
      now_shared = m /\
      exists part : gmap string ResourcePack,
        part ⊆ m /\ dom part = seen /\ Permutation out (map_to_list part).*2
  | All_unlock out => now_shared = m /\ Permutation out (map_to_list m).*2
  | All_done out => Permutation out (map_to_list m).*2
  | Get_read name => now_shared = m
  | Get_unlock name found => now_shared = m /\ found = m !! name
  | Get_done name found => found = m !! name
  end.

Section Invariant.
Context `{GoLib}.
Variables (os : OS) (now : Time) (pm0 : PacksManager).

(** How far the scan is, read off the shared manager. *)
Definition scanAt (sc : ScanCall) (pm : PacksManager) : Prop :=
  match sc with
  | S_start | S_reset => pm = pm0
  | S_root old => old = dom (packs pm0) /\ pm = scanBegin pm0
  | S_readdir old => old = dom (packs pm0) /\ pm = scanRoot os (scanBegin pm0)
  | S_loop old rest =>
      old = dom (packs pm0) /\
      exists done_,
        os_ReadDir os (packsDirectory (scanRoot os (scanBegin pm0))) = Ok (done_ ++ rest) /\
        pm = fold_left (scanEntry os) done_ (scanRoot os (scanBegin pm0))
  | S_unlock err | S_done err => (pm, err) = scanPacks os now pm0
  end.

(** What holds in every state the interleaving reaches: the scan is where
    its program counter says, the lock is held by who stands inside it, and
    each reader has a view of the index of before the scan or of the index
    the scan leaves. *)
Definition invariant (s : System) : Prop :=
  scanAt (scanner s) (shared s) /\
  writing (mu s) = holdsLock (scanner s) /\
  (writing (mu s) = true -> reading (mu s) = 0%nat) /\
  readLocks (readers s) = reading (mu s) /\
  List.Forall
    (fun r => viewOf (packs pm0) (packs (shared s)) r \/
              viewOf (packs (scanPacks os now pm0).1) (packs (shared s)) r)
    (readers s).

End Invariant.

(** * Concrete inputs *)

Definition dquote : string := String (ascii_of_nat 34) EmptyString.

(** [{"pack":{}}] *)
Definition doc_bare : string := "{" +:+ dquote +:+ "pack" +:+ dquote +:+ ":{}}".

(** [{"pack":{"description":"Foo","pack_format":15}}] *)
Definition doc_foo : string :=
  "{" +:+ dquote +:+ "pack" +:+ dquote +:+ ":{" +:+ dquote +:+ "description" +:+ dquote
      +:+ ":" +:+ dquote +:+ "Foo" +:+ dquote +:+ "," +:+ dquote +:+ "pack_format" +:+ dquote
      +:+ ":15}}".

(** [{"pack":{"description":"Bar","pack_format":9}}] *)
Definition doc_bar : string :=
  "{" +:+ dquote +:+ "pack" +:+ dquote +:+ ":{" +:+ dquote +:+ "description" +:+ dquote
      +:+ ":" +:+ dquote +:+ "Bar" +:+ dquote +:+ "," +:+ dquote +:+ "pack_format" +:+ dquote
      +:+ ":9}}".

(** A decoder that knows the documents above, and an instance of the open
    library functions to run the manager on concrete inputs. *)
Definition demo_Unmarshal (content : string) : result (gmap string JValue) :=
  if String.eqb content doc_bare then Ok {[ "pack" := JObject ∅ ]}
  else if String.eqb content doc_foo then
    Ok {[ "pack" := JObject (<[ "description" := JString "Foo" ]>
                               {[ "pack_format" := JNumber 15%float ]}) ]}
  else if String.eqb content doc_bar then
    Ok {[ "pack" := JObject (<[ "description" := JString "Bar" ]>
                               {[ "pack_format" := JNumber 9%float ]}) ]}
  else if String.eqb content "null" then Ok ∅
  else Err (OSError "invalid character").

(** [filepath.Rel] on the paths a walk of [base] yields: [base] itself and
    clean paths below it. *)
Definition demo_Rel (base target : string) : string :=
  if String.eqb base target then "."
  else if String.prefix (base +:+ "/") target
  then substring (String.length base + 1)
         (String.length target - String.length base - 1) target
  else target.

Definition demoLib : GoLib :=
  {| json_Unmarshal := demo_Unmarshal;
     md5_Sum := md5.Sum;
     filepath_Rel := demo_Rel |}.

Definition ENOENT : error := OSError "no such file or directory".
Definition EACCES : error := OSError "permission denied".

Fixpoint table {A : Type} (rows : list (string * A)) (path : string) : result A :=
  match rows with
  | [] => Err ENOENT
  | (p, a) :: rest => if String.eqb p path then Ok a else table rest path
  end.

Definition aFile (name : string) (size : Z) (mtime : Time) : FileInfo :=
  {| fi_Name := name; fi_Size := size; fi_ModTime := mtime; fi_IsDir := false |}.

Definition aDir (name : string) (mtime : Time) : FileInfo :=
  {| fi_Name := name; fi_Size := 4096; fi_ModTime := mtime; fi_IsDir := true |}.

Definition visit (path : string) (info : FileInfo) : Visit :=
  {| v_path := path; v_info := info; v_err := None |}.

Definition member (name content : string) : ZipFile :=
  {| zf_Name := name; zf_Open := Ok {| ReadAll := Ok content |} |}.

(** A disk given by what [os.Stat] knows, the listing of each directory,
    the content of each file, the members of each archive and the visits of
    each walk; walking a path that is not listed reports the error at the
    root of the walk. *)
Definition disk (stats : list (string * FileInfo)) (listings : list (string * list DirEntry))
    (contents : list (string * string)) (archives : list (string * list ZipFile))
    (walks : list (string * list Visit)) : OS :=
  {| os_Stat := table stats;
     os_ReadDir := table listings;
     os_ReadFile := table contents;
     os_Open := fun path =>
       match table contents path with
       | Ok content => Ok {| ReadAll := Ok content |}
       | Err e => Err e
       end;
     os_Create := fun _ => None;
     os_MkdirAll := fun _ => None;
     os_TempDir := "/tmp";
     zip_OpenReader := table archives;
     zip_Create := fun _ => None;
     zip_Write := fun _ _ => None;
     fsnotify_NewWatcher := None;
     fsnotify_Add := fun _ => None;
     walk_visits := fun root =>
       match table walks root with
       | Ok visits => visits
       | Err e => [{| v_path := root; v_info := aDir root 0; v_err := Some e |}]
       end |}.

(** The same disk with a directory listing that fails. *)
Definition unlistable (os : OS) (err : error) : OS :=
  {| os_Stat := os_Stat os; os_ReadDir := fun _ => Err err; os_ReadFile := os_ReadFile os;
     os_Open := os_Open os; os_Create := os_Create os; os_MkdirAll := os_MkdirAll os;
     os_TempDir := os_TempDir os; zip_OpenReader := zip_OpenReader os;
     zip_Create := zip_Create os; zip_Write := zip_Write os;
     fsnotify_NewWatcher := fsnotify_NewWatcher os; fsnotify_Add := fsnotify_Add os;
     walk_visits := walk_visits os |}.

(** The same disk on which a file can be created at one path and nowhere
    else. *)
Definition creates_only (path : string) (os : OS) : OS :=
  {| os_Stat := os_Stat os; os_ReadDir := os_ReadDir os; os_ReadFile := os_ReadFile os;
     os_Open := os_Open os;
     os_Create := fun p => if String.eqb p path then None else Some EACCES;
     os_MkdirAll := os_MkdirAll os; os_TempDir := os_TempDir os;
     zip_OpenReader := zip_OpenReader os; zip_Create := zip_Create os;
     zip_Write := zip_Write os; fsnotify_NewWatcher := fsnotify_NewWatcher os;
     fsnotify_Add := fsnotify_Add os; walk_visits := walk_visits os |}.

(** The disk of the end-to-end scenario: [/resourcepacks] holds the archive
    [foo.zip] and the directory [bar] with a manifest. *)
Definition scenario_os : OS :=
  disk
    [("/resourcepacks", aDir "resourcepacks" 1700000000000000000);
     ("/resourcepacks/bar", aDir "bar" 1700000001000000000);
     ("/resourcepacks/bar/pack.mcmeta", aFile "pack.mcmeta" 46 1700000002000000000);
     ("/resourcepacks/foo.zip", aFile "foo.zip" 2048 1700000003000000000)]
    [("/resourcepacks",
      [{| de_Name := "bar"; de_IsDir := true |}; {| de_Name := "foo.zip"; de_IsDir := false |}])]
    [("/resourcepacks/bar/pack.mcmeta", doc_bar);
     ("/resourcepacks/bar/assets/b.png", "PNG-b");
     ("/resourcepacks/foo.zip", "PK-foo")]
    [("/resourcepacks/foo.zip", [member "assets/a.png" "PNG-a"; member "pack.mcmeta" doc_foo])]
    [("/resourcepacks/bar",
      [visit "/resourcepacks/bar" (aDir "bar" 1700000001000000000);
       visit "/resourcepacks/bar/assets" (aDir "assets" 1700000001000000000);
       visit "/resourcepacks/bar/assets/b.png" (aFile "b.png" 5 1700000001000000000);
       visit "/resourcepacks/bar/pack.mcmeta" (aFile "pack.mcmeta" 46 1700000002000000000)])].

(** The tree of [bar] walked in another order, and with another content of
    the same size and time in [b.png]. *)
Definition shuffled_os : OS :=
  disk
    [("/resourcepacks/bar", aDir "bar" 1700000001000000000)]
    []
    [("/resourcepacks/bar/pack.mcmeta", doc_bar);
     ("/resourcepacks/bar/assets/b.png", "PNG-b")]
    []
    [("/resourcepacks/bar",
      [visit "/resourcepacks/bar/pack.mcmeta" (aFile "pack.mcmeta" 46 1700000002000000000);
       visit "/resourcepacks/bar" (aDir "bar" 1700000001000000000);
       visit "/resourcepacks/bar/assets/b.png" (aFile "b.png" 5 1700000001000000000);
       visit "/resourcepacks/bar/assets" (aDir "assets" 1700000001000000000)])].

Definition edited_os : OS :=
  disk
    [("/resourcepacks/bar", aDir "bar" 1700000001000000000)]
    []
    [("/resourcepacks/bar/pack.mcmeta", doc_bar);
     ("/resourcepacks/bar/assets/b.png", "PNG-c")]
    []
    [("/resourcepacks/bar",
      [visit "/resourcepacks/bar" (aDir "bar" 1700000001000000000);
       visit "/resourcepacks/bar/assets" (aDir "assets" 1700000001000000000);
       visit "/resourcepacks/bar/assets/b.png" (aFile "b.png" 5 1700000001000000000);
       visit "/resourcepacks/bar/pack.mcmeta" (aFile "pack.mcmeta" 46 1700000002000000000)])].

(** A disk on which the enumeration yields an archive before a directory. *)
Definition interleaved_os : OS :=
  disk
    [("/resourcepacks", aDir "resourcepacks" 1700000000000000000);
     ("/resourcepacks/a.zip", aFile "a.zip" 100 1700000001000000000);
     ("/resourcepacks/b", aDir "b" 1700000002000000000);
     ("/resourcepacks/b/pack.mcmeta", aFile "pack.mcmeta" 46 1700000002000000000)]
    [("/resourcepacks",
      [{| de_Name := "a.zip"; de_IsDir := false |}; {| de_Name := "b"; de_IsDir := true |}])]
    [("/resourcepacks/a.zip", "PK-a"); ("/resourcepacks/b/pack.mcmeta", doc_bar)]
    [("/resourcepacks/a.zip", [member "pack.mcmeta" doc_foo])]
    [("/resourcepacks/b",
      [visit "/resourcepacks/b" (aDir "b" 1700000002000000000);
       visit "/resourcepacks/b/pack.mcmeta" (aFile "pack.mcmeta" 46 1700000002000000000)])].

(** A disk whose archive has no manifest and whose directory [plain] has none
    either. *)
Definition bare_os : OS :=
  disk
    [("/resourcepacks", aDir "resourcepacks" 1700000000000000000);
     ("/resourcepacks/plain", aDir "plain" 1700000001000000000);
     ("/resourcepacks/plain/readme.txt", aFile "readme.txt" 5 1700000001000000000);
     ("/resourcepacks/textures.zip", aFile "textures.zip" 4096 1700000002000000000)]
    [("/resourcepacks",
      [{| de_Name := "plain"; de_IsDir := true |};
       {| de_Name := "textures.zip"; de_IsDir := false |}])]
    [("/resourcepacks/plain/readme.txt", "hello");
     ("/resourcepacks/textures.zip", "PK-textures")]
    [("/resourcepacks/textures.zip", [member "assets/stone.png" "PNG-stone"])]
    [("/resourcepacks/plain",
      [visit "/resourcepacks/plain" (aDir "plain" 1700000001000000000);
       visit "/resourcepacks/plain/readme.txt"
         (aFile "readme.txt" 5 1700000001000000000)])].

(** A manager as [NewPacksManager] builds it, before its first scan. *)
Definition fresh_pm (cooldown : Duration) : PacksManager :=
  {| config := {| Directory := "/resourcepacks"; FileMonitor := true;
                  FileMonitorInterval := time.Second; ScanCooldown := cooldown |};
     logger := []; packsDirectory := "/resourcepacks";
     tempDir := "/tmp/resourcepack_server"; packs := ∅;
     lastScanTime := time.zero; scanCooldown := cooldown |}.

Definition foo_pack : ResourcePack :=
  {| Name := "foo"; Path := "/resourcepacks/foo.zip"; Description := "Foo"; PackFormat := 15;
     Size := 2048; Hash := "7bb8f51dbd3e6ccce0cf972ede918ed5";
     LastModified := 1700000003000000000; IsDirectory := false |}.

(** A manager that serves [foo] after a scan at 1700000010 s. *)
Definition serving_pm : PacksManager :=
  {| config := config (fresh_pm (2 * time.Second)); logger := [];
     packsDirectory := "/resourcepacks"; tempDir := "/tmp/resourcepack_server";
     packs := {[ "foo" := foo_pack ]};
     lastScanTime := 1700000010 * time.Second; scanCooldown := 2 * time.Second |}.

Definition notification (at_ : Time) (os : OS) (scanTakes : Duration) : Delivery :=
  {| d_at := at_; d_what := RecvEvent {| ev_Name := "/resourcepacks/foo.zip"; ev_Op := 2 |} true;
     d_os := os; d_scanTakes := scanTakes |}.

(** Two notifications half a second apart, as the watcher receives them. *)
Definition twoNotifications (first : Time) (os1 os2 : OS) (takes1 takes2 : Duration)
  : list Delivery :=
  [notification first os1 takes1;
   notification (first + 500 * time.Millisecond) os2 takes2].

(** * Theorems *)

#[local] Arguments String.append : simpl nomatch.

(** ** The libraries *)

Example md5_empty : fmt.x (md5.Sum "") = "d41d8cd98f00b204e9800998ecf8427e".
Proof. vm_compute. reflexivity. Qed.

Example md5_abc : fmt.x (md5.Sum "abc") = "900150983cd24fb0d6963f7d28e17f72".
Proof. vm_compute. reflexivity. Qed.

Example md5_fox :
  fmt.x (md5.Sum "The quick brown fox jumps over the lazy dog")
  = "9e107d9d372bb6826bd81d3542a419d6".
Proof. vm_compute. reflexivity. Qed.

Example md5_two_blocks :
  fmt.x (md5.Sum
    "12345678901234567890123456789012345678901234567890123456789012345678901234567890")
  = "57edf4a22be3c955ac49da2e2107b67a".
Proof. vm_compute. reflexivity. Qed.

(** ** The order of strings *)

Lemma string_compare_trans (a b c : string) :
  String.compare a b <> Gt -> String.compare b c <> Gt -> String.compare a c <> Gt.
Proof.
  revert b c. induction a as [|x a IH]; intros [|y b] [|z c]; simpl; try congruence.
  destruct (Ascii.compare x y) eqn:Hxy; [| |congruence];
    destruct (Ascii.compare y z) eqn:Hyz; try congruence.
  - apply Ascii.compare_eq_iff in Hxy, Hyz. subst.
    unfold Ascii.compare. rewrite N.compare_refl. apply IH.
  - apply Ascii.compare_eq_iff in Hxy. subst. rewrite Hyz. congruence.
  - apply Ascii.compare_eq_iff in Hyz. subst. rewrite Hxy. congruence.
  - intros _ _. unfold Ascii.compare in *.
    rewrite N.compare_lt_iff in Hxy, Hyz.
    assert (Hxz : (N_of_ascii x < N_of_ascii z)%N) by (etransitivity; eassumption).
    apply N.compare_lt_iff in Hxz. rewrite Hxz. congruence.
Qed.

Lemma leb_iff (a b : string) : String.leb a b = true <-> String.compare a b <> Gt.
Proof. unfold String.leb. destruct (String.compare a b); split; congruence. Qed.

Lemma leb_trans (a b c : string) :
  String.leb a b = true -> String.leb b c = true -> String.leb a c = true.
Proof. rewrite !leb_iff. apply string_compare_trans. Qed.

Lemma leb_false_flip (a b : string) : String.leb a b = false -> String.leb b a = true.
Proof. destruct (String.leb_total a b); congruence. Qed.

(** ** [sort.Strings] returns the one increasing arrangement of its input *)

Lemma insert_sorted_perm (s : string) (l : list string) :
  Permutation (insert_sorted s l) (s :: l).
Proof.
  induction l as [|h t IH]; simpl; [reflexivity|].
  destruct (String.leb s h); [reflexivity|].
  rewrite IH. apply perm_swap.
Qed.

Lemma sort_Strings_perm (l : list string) : Permutation (sort_Strings l) l.
Proof.
  induction l as [|h t IH]; simpl; [reflexivity|].
  rewrite insert_sorted_perm. now apply perm_skip.
Qed.

Lemma insert_sorted_increasing (s : string) (l : list string) :
  increasing l -> increasing (insert_sorted s l).
Proof.
  induction 1 as [|h t Ht IH Hh]; simpl.
  - repeat constructor.
  - destruct (String.leb s h) eqn:Hsh.
    + constructor; [now constructor|]. constructor; [exact Hsh|].
      eapply List.Forall_impl; [|exact Hh]. intros b Hb. eapply leb_trans; eassumption.
    + constructor; [exact IH|].
      eapply Permutation_Forall; [symmetry; apply insert_sorted_perm|].
      constructor; [now apply leb_false_flip|exact Hh].
Qed.

Lemma sort_Strings_sorted (l : list string) : increasing (sort_Strings l).
Proof.
  induction l as [|h t IH]; simpl; [constructor|now apply insert_sorted_increasing].
Qed.

Lemma sorted_perm_unique (l1 l2 : list string) :
  increasing l1 -> increasing l2 -> Permutation l1 l2 -> l1 = l2.
Proof.
  intros H1. revert l2. induction H1 as [|a l1 Hl1 IH Ha]; intros l2 H2 Hp.
  - apply Permutation_nil in Hp. now subst.
  - destruct H2 as [|b l2 Hl2 Hb].
    + symmetry in Hp. now apply Permutation_nil in Hp.
    + assert (Hab : a = b).
      { apply String.leb_antisym.
        - assert (Hin : In b (a :: l1)) by (eapply Permutation_in; [symmetry; exact Hp|now left]).
          destruct Hin as [->|Hin].
          + destruct (String.leb_total b b); assumption.
          + rewrite List.Forall_forall in Ha. now apply Ha.
        - assert (Hin : In a (b :: l2)) by (eapply Permutation_in; [exact Hp|now left]).
          destruct Hin as [->|Hin].
          + destruct (String.leb_total a a); assumption.
          + rewrite List.Forall_forall in Hb. now apply Hb. }
      subst b. f_equal. apply IH; [exact Hl2|].
      eapply Permutation_cons_inv. exact Hp.
Qed.

Lemma sort_Strings_Permutation (l1 l2 : list string) :
  Permutation l1 l2 -> sort_Strings l1 = sort_Strings l2.
Proof.
  intros Hp. apply sorted_perm_unique; try apply sort_Strings_sorted.
  rewrite !sort_Strings_perm. exact Hp.
Qed.

(** ** Strings *)

Lemma append_nil_r (s : string) : s +:+ "" = s.
Proof. induction s as [|c s IH]; simpl; [reflexivity|now rewrite IH]. Qed.

Lemma append_assoc (a b c : string) : (a +:+ b) +:+ c = a +:+ (b +:+ c).
Proof. induction a as [|x a IH]; simpl; [reflexivity|now rewrite IH]. Qed.

Lemma length_append (a b : string) :
  String.length (a +:+ b) = (String.length a + String.length b)%nat.
Proof. induction a as [|x a IH]; simpl; [reflexivity|now rewrite IH]. Qed.

Lemma list_ascii_append (a b : string) :
  list_ascii_of_string (a +:+ b) = list_ascii_of_string a ++ list_ascii_of_string b.
Proof. induction a as [|x a IH]; simpl; [reflexivity|now rewrite IH]. Qed.

Lemma list_ascii_inj (a b : string) :
  list_ascii_of_string a = list_ascii_of_string b -> a = b.
Proof.
  intros Heq. rewrite <- (string_of_list_ascii_of_string a),
    <- (string_of_list_ascii_of_string b). now rewrite Heq.
Qed.

Lemma append_inv_tail (a b c : string) : a +:+ c = b +:+ c -> a = b.
Proof.
  intros Heq. apply list_ascii_inj. apply (f_equal list_ascii_of_string) in Heq.
  rewrite !list_ascii_append in Heq. now apply app_inv_tail in Heq.
Qed.

Lemma append_inv_head (a b c : string) : a +:+ b = a +:+ c -> b = c.
Proof. induction a as [|x a IH]; simpl; [trivial|]. intros [= Heq]. now apply IH. Qed.

Lemma append_empty (a b : string) : a +:+ b = "" -> a = "" /\ b = "".
Proof. destruct a; simpl; [now split|discriminate]. Qed.

Lemma no_sep_append (a b : string) : no_sep (a +:+ b) = no_sep a && no_sep b.
Proof.
  induction a as [|x a IH]; simpl; [reflexivity|]. rewrite IH. now rewrite andb_assoc.
Qed.

Lemma compare_refl (s : string) : String.compare s s = Eq.
Proof.
  induction s as [|c s IH]; simpl; [reflexivity|].
  unfold Ascii.compare. now rewrite N.compare_refl.
Qed.

Lemma compare_append_Lt (s t : string) : t <> "" -> String.compare s (s +:+ t) = Lt.
Proof.
  intros Ht. induction s as [|c s IH]; simpl.
  - destruct t; [contradiction|reflexivity].
  - unfold Ascii.compare. now rewrite N.compare_refl.
Qed.

(** ** [strings.HasSuffix] and [strings.TrimSuffix] *)

Lemma substring_split (k : nat) (s : string) :
  (k <= String.length s)%nat ->
  substring 0 k s +:+ substring k (String.length s - k) s = s.
Proof.
  revert s. induction k as [|k IH]; intros s Hk.
  - simpl. rewrite Nat.sub_0_r. destruct s as [|c s]; [reflexivity|]. simpl.
    f_equal. clear. induction s as [|c s IH]; simpl; [reflexivity|now rewrite IH].
  - destruct s as [|c s]; simpl in *; [lia|]. f_equal. apply IH. lia.
Qed.

Lemma HasSuffix_TrimSuffix (s suffix : string) :
  strings.HasSuffix s suffix = true -> s = strings.TrimSuffix s suffix +:+ suffix.
Proof.
  intros Hs. unfold strings.TrimSuffix. rewrite Hs.
  unfold strings.HasSuffix in Hs. apply andb_true_iff in Hs as [Hlen Heq].
  apply Nat.leb_le in Hlen. apply String.eqb_eq in Heq.
  pose proof (substring_split (String.length s - String.length suffix) s) as Hsplit.
  replace (String.length s - (String.length s - String.length suffix))%nat
    with (String.length suffix) in Hsplit by lia.
  rewrite Heq in Hsplit. symmetry. apply Hsplit. lia.
Qed.

(** ** The elements of a path *)

Lemma elements_nonempty (s : string) : filepath.elements s <> [].
Proof.
  destruct s as [|c s]; simpl; [discriminate|].
  destruct (filepath.is_sep c); [discriminate|].
  destruct (filepath.elements s); discriminate.
Qed.

Lemma elements_no_sep (n : string) : no_sep n = true -> filepath.elements n = [n].
Proof.
  induction n as [|c n IH]; simpl; [reflexivity|].
  intros Hn. apply andb_true_iff in Hn as [Hc Hn].
  apply negb_true_iff in Hc. rewrite Hc, (IH Hn). reflexivity.
Qed.

Lemma elements_app_sep (s t : string) :
  filepath.elements (s +:+ "/" +:+ t) = filepath.elements s ++ filepath.elements t.
Proof.
  induction s as [|c s IH]; simpl in *; [reflexivity|].
  destruct (filepath.is_sep c); rewrite IH; [reflexivity|].
  pose proof (elements_nonempty s) as Hne.
  destruct (filepath.elements s); [contradiction|reflexivity].
Qed.

Lemma elements_app_tail (s t : string) :
  no_sep t = true ->
  filepath.elements (s +:+ t) =
  removelast (filepath.elements s) ++ [List.last (filepath.elements s) "" +:+ t].
Proof.
  intros Ht. induction s as [|c s IH]; simpl.
  - now apply elements_no_sep.
  - pose proof (elements_nonempty s) as Hne.
    rewrite IH. destruct (filepath.is_sep c).
    + destruct (filepath.elements s); [contradiction|reflexivity].
    + destruct (filepath.elements s) as [|e [|e' es]]; [contradiction|reflexivity|reflexivity].
Qed.

(** ** [Clean] on a path that ends in a kept element *)

Lemma clean_step_kept (is_rooted : bool) (out : list string) (e : string) :
  kept e -> filepath.clean_step is_rooted out e = e :: out.
Proof.
  intros (H1 & H2 & H3). unfold filepath.clean_step.
  apply String.eqb_neq in H1, H2, H3. now rewrite H1, H2, H3.
Qed.

Lemma concat_snoc (xs : list string) (e : string) :
  String.concat "/" (xs ++ [e]) =
  match xs with
  | [] => e
  | _ => String.concat "/" xs +:+ "/" +:+ e
  end.
Proof.
  induction xs as [|x xs IH]; [reflexivity|].
  change ((x :: xs) ++ [e]) with (x :: (xs ++ [e])).
  destruct xs as [|y ys]; [reflexivity|].
  change (String.concat "/" (x :: (y :: ys) ++ [e]))
    with (x +:+ "/" +:+ String.concat "/" ((y :: ys) ++ [e])).
  rewrite IH.
  change (String.concat "/" (x :: y :: ys)) with (x +:+ "/" +:+ String.concat "/" (y :: ys)).
  now rewrite !append_assoc.
Qed.

Lemma rooted_append (q t : string) :
  filepath.rooted (q +:+ t) = if String.eqb q "" then filepath.rooted t else filepath.rooted q.
Proof. destruct q; reflexivity. Qed.

Lemma Clean_tail (q t : string) :
  no_sep t = true ->
  kept (List.last (filepath.elements q) "" +:+ t) ->
  filepath.Clean (q +:+ t) =
  cleanPrefix (filepath.rooted (q +:+ t)) q +:+ (List.last (filepath.elements q) "" +:+ t).
Proof.
  intros Ht Hkept. unfold filepath.Clean, cleanPrefix.
  set (r := filepath.rooted (q +:+ t)).
  set (e := List.last (filepath.elements q) "" +:+ t) in *.
  rewrite elements_app_tail by exact Ht. fold e.
  rewrite fold_left_app. simpl. rewrite clean_step_kept by exact Hkept.
  set (out := fold_left (filepath.clean_step r) (removelast (filepath.elements q)) []).
  simpl. rewrite concat_snoc.
  assert (He : e <> "") by apply Hkept.
  destruct r.
  - destruct (rev out); [reflexivity|]. now rewrite !append_assoc.
  - destruct (rev out) as [|x xs].
    + apply String.eqb_neq in He. now rewrite He.
    + set (body := String.concat "/" (x :: xs) +:+ "/" +:+ e).
      assert (Hbody : body <> "").
      { unfold body. intros Hb. apply append_empty in Hb as [_ Hb]. discriminate. }
      apply String.eqb_neq in Hbody. rewrite Hbody. unfold body.
      now rewrite !append_assoc.
Qed.

Lemma cleanPrefix_shape (is_rooted : bool) (q : string) :
  cleanPrefix is_rooted q = "" \/ exists x, cleanPrefix is_rooted q = x +:+ "/".
Proof.
  unfold cleanPrefix. destruct is_rooted; destruct (rev _) as [|x xs].
  - right. exists "". reflexivity.
  - right. exists ("/" +:+ String.concat "/" (x :: xs)). now rewrite append_assoc.
  - left. reflexivity.
  - right. eexists. reflexivity.
Qed.

(** ** [Base] *)

Lemma last_element_no_sep (l rest : list ascii) :
  forallb (fun c => negb (filepath.is_sep c)) l = true ->
  match rest with [] => True | c :: _ => filepath.is_sep c = true end ->
  filepath.last_element (l ++ rest) = l.
Proof.
  intros Hl Hrest. induction l as [|c l IH]; simpl.
  - destruct rest as [|c rest]; [reflexivity|]. simpl. now rewrite Hrest.
  - simpl in Hl. apply andb_true_iff in Hl as [Hc Hl].
    apply negb_true_iff in Hc. rewrite Hc. f_equal. now apply IH.
Qed.

Lemma no_sep_forallb (s : string) :
  no_sep s = forallb (fun c => negb (filepath.is_sep c)) (list_ascii_of_string s).
Proof. induction s as [|c s IH]; simpl; [reflexivity|now rewrite IH]. Qed.

Lemma Base_tail (pre e : string) :
  no_sep e = true -> e <> "" ->
  (pre = "" \/ exists x, pre = x +:+ "/") ->
  filepath.Base (pre +:+ e) = e.
Proof.
  intros He Hne Hpre. unfold filepath.Base.
  assert (Hpath : String.eqb (pre +:+ e) "" = false).
  { apply String.eqb_neq. intros Hp. now apply append_empty in Hp as [_ Hp]. }
  rewrite Hpath, list_ascii_append, rev_app_distr.
  rewrite no_sep_forallb in He.
  assert (Hrev : forallb (fun c => negb (filepath.is_sep c)) (rev (list_ascii_of_string e)) = true).
  { rewrite forallb_forall in *. intros c Hc. apply He. now apply in_rev. }
  assert (Hstrip : filepath.strip_trailing_seps
                     (rev (list_ascii_of_string e) ++ rev (list_ascii_of_string pre))
                   = rev (list_ascii_of_string e) ++ rev (list_ascii_of_string pre)).
  { destruct (rev (list_ascii_of_string e)) as [|c l] eqn:Hl.
    - apply (f_equal (@rev ascii)) in Hl. rewrite rev_involutive in Hl. simpl in Hl.
      exfalso. apply Hne. now apply list_ascii_inj.
    - simpl in *. apply andb_true_iff in Hrev as [Hc _].
      apply negb_true_iff in Hc. now rewrite Hc. }
  rewrite Hstrip, last_element_no_sep.
  - rewrite rev_involutive, string_of_list_ascii_of_string.
    apply String.eqb_neq in Hne. now rewrite Hne.
  - exact Hrev.
  - destruct Hpre as [->|[x ->]]; [exact I|].
    rewrite list_ascii_append, rev_app_distr. reflexivity.
Qed.

(** The name of an entry is the base of its path under the root. *)
Lemma Base_Join (root n : string) : properName n -> filepath.Base (filepath.Join root n) = n.
Proof.
  intros (Hsep & Hkept). unfold filepath.Join.
  assert (Hn : n <> "") by apply Hkept.
  destruct (String.eqb_spec root "") as [->|Hroot]; cbn [negb].
  - apply String.eqb_neq in Hn. rewrite Hn. cbn [negb].
    change n with ("" +:+ n) at 1. rewrite Clean_tail by assumption. simpl.
    apply Base_tail; [assumption|now apply String.eqb_neq|apply cleanPrefix_shape].
  - rewrite <- append_assoc.
    assert (Hlast : List.last (filepath.elements (root +:+ "/")) "" = "").
    { replace (root +:+ "/") with (root +:+ "/" +:+ "") by now rewrite append_nil_r.
      rewrite elements_app_sep. simpl. apply last_last. }
    rewrite Clean_tail; rewrite ?Hlast; simpl; try assumption.
    apply Base_tail; [assumption|assumption|apply cleanPrefix_shape].
Qed.

(** Two paths that [Join] builds under one directory from two file names
    with one stem and two tails free of separators are equal only if the
    tails are. *)
Lemma Join_tail_inj (dir stem t1 t2 : string) :
  no_sep t1 = true -> no_sep t2 = true ->
  (2 < String.length t1)%nat -> (2 < String.length t2)%nat ->
  filepath.rooted (stem +:+ t1) = filepath.rooted (stem +:+ t2) ->
  filepath.Join dir (stem +:+ t1) = filepath.Join dir (stem +:+ t2) ->
  t1 = t2.
Proof.
  intros Hs1 Hs2 Hl1 Hl2 Hroot.
  assert (Hkept : forall (q t : string), (2 < String.length t)%nat ->
            kept (List.last (filepath.elements q) "" +:+ t)).
  { intros q t Hl. repeat split; intros Heq; apply (f_equal String.length) in Heq;
      rewrite length_append in Heq; simpl in Heq; lia. }
  assert (Hne : forall t, (2 < String.length t)%nat -> String.eqb (stem +:+ t) "" = false).
  { intros t Hl. apply String.eqb_neq. intros Heq. apply append_empty in Heq as [_ ->].
    simpl in Hl. lia. }
  unfold filepath.Join. destruct (String.eqb dir "") eqn:Hdir; cbn [negb].
  - rewrite !Hne by assumption. cbn [negb].
    rewrite !Clean_tail by auto. rewrite Hroot. intros Heq.
    apply append_inv_head in Heq. now apply append_inv_head in Heq.
  - rewrite <- !append_assoc.
    rewrite !(Clean_tail ((dir +:+ "/") +:+ stem)) by auto.
    rewrite !(rooted_append ((dir +:+ "/") +:+ stem)).
    replace (String.eqb ((dir +:+ "/") +:+ stem) "") with false.
    + intros Heq. apply append_inv_head in Heq. now apply append_inv_head in Heq.
    + symmetry. apply String.eqb_neq. intros Heq. rewrite append_assoc in Heq.
      apply append_empty in Heq as [_ Heq]. discriminate.
Qed.

Lemma pretty_N_char_no_sep (k : N) (s : string) :
  no_sep (String (pretty_N_char k) s) = no_sep s.
Proof. unfold pretty_N_char. repeat case_match; reflexivity. Qed.

Lemma pretty_N_go_no_sep (x : N) (s : string) :
  no_sep s = true -> no_sep (pretty_N_go x s) = true.
Proof.
  revert s. induction (N.lt_wf_0 x) as [x _ IH]; intros s Hs.
  assert (x = 0 \/ 0 < x)%N as [->|Hpos] by lia.
  - now rewrite pretty_N_go_0.
  - rewrite pretty_N_go_step by exact Hpos. apply IH.
    + now apply N.div_lt.
    + now rewrite pretty_N_char_no_sep.
Qed.

Lemma pretty_N_no_sep (x : N) : no_sep (pretty x) = true.
Proof.
  unfold pretty, pretty_N. case_decide; [reflexivity|]. now apply pretty_N_go_no_sep.
Qed.

Lemma fmt_d_no_sep (n : Z) : no_sep (fmt.d n) = true.
Proof.
  unfold fmt.d, pretty, pretty_Z. destruct n as [|p|p]; [reflexivity| |].
  - apply (pretty_N_no_sep (N.pos p)).
  - rewrite no_sep_append. simpl. apply (pretty_N_no_sep (N.pos p)).
Qed.

(** ** The manifest *)

Section ParseFacts.
Context `{GoLib}.

Lemma zipManifest_find (files : list ZipFile) (description : string) (packFormat : Z) :
  zipManifest files description packFormat =
  match List.find (fun file => String.eqb (zf_Name file) "pack.mcmeta") files with
  | Some file =>
      match zf_Open file with
      | Ok rc =>
          match ReadAll rc with
          | Ok content =>
              match parsePackMcmeta content with
              | Some packInfo => (pi_Description packInfo, pi_PackFormat packInfo)
              | None => (description, packFormat)
              end
          | Err _ => (description, packFormat)
          end
      | Err _ => (description, packFormat)
      end
  | None => (description, packFormat)
  end.
Proof.
  induction files as [|file rest IH]; simpl; [reflexivity|].
  destruct (String.eqb (zf_Name file) "pack.mcmeta"); [reflexivity|apply IH].
Qed.

Lemma loadDirectoryPack_inv (os : OS) (dirPath : string) (p : ResourcePack) :
  loadDirectoryPack os dirPath = Ok p ->
  exists size hash stat,
    calculateDirectorySize os dirPath = Ok size /\
    calculateDirectoryHash os dirPath = Ok hash /\
    os_Stat os dirPath = Ok stat /\
    p = {| Name := filepath.Base dirPath; Path := dirPath;
           Description :=
             fst (match os_ReadFile os (filepath.Join dirPath "pack.mcmeta") with
                  | Ok content =>
                      match parsePackMcmeta content with
                      | Some packInfo => (pi_Description packInfo, pi_PackFormat packInfo)
                      | None => ("Resource Pack: " +:+ filepath.Base dirPath, 22)
                      end
                  | Err _ => ("Resource Pack: " +:+ filepath.Base dirPath, 22)
                  end);
           PackFormat :=
             snd (match os_ReadFile os (filepath.Join dirPath "pack.mcmeta") with
                  | Ok content =>
                      match parsePackMcmeta content with
                      | Some packInfo => (pi_Description packInfo, pi_PackFormat packInfo)
                      | None => ("Resource Pack: " +:+ filepath.Base dirPath, 22)
                      end
                  | Err _ => ("Resource Pack: " +:+ filepath.Base dirPath, 22)
                  end);
           Size := size; Hash := hash; LastModified := fi_ModTime stat;
           IsDirectory := true |}.
Proof.
  unfold loadDirectoryPack.
  destruct (match os_ReadFile os (filepath.Join dirPath "pack.mcmeta") with
            | Ok content => _ | Err _ => _ end) as [description packFormat].
  destruct (calculateDirectorySize os dirPath) as [size|]; simpl; [|discriminate].
  destruct (calculateDirectoryHash os dirPath) as [hash|]; simpl; [|discriminate].
  destruct (os_Stat os dirPath) as [stat|]; simpl; [|discriminate].
  intros [= <-]. exists size, hash, stat. repeat split.
Qed.

Lemma loadZipPack_inv (os : OS) (packPath : string) (p : ResourcePack) :
  loadZipPack os packPath = Ok p ->
  exists stat hash,
    os_Stat os packPath = Ok stat /\
    calculateFileHash os packPath = Ok hash /\
    let name := strings.TrimSuffix (filepath.Base packPath) ".zip" in
    let meta :=
      match zip_OpenReader os packPath with
      | Ok files => zipManifest files ("Resource Pack: " +:+ name) 22
      | Err _ => ("Resource Pack: " +:+ name, 22)
      end in
    p = {| Name := name; Path := packPath; Description := fst meta; PackFormat := snd meta;
           Size := fi_Size stat; Hash := hash; LastModified := fi_ModTime stat;
           IsDirectory := false |}.
Proof.
  unfold loadZipPack.
  destruct (os_Stat os packPath) as [stat|]; simpl; [|discriminate].
  destruct (match zip_OpenReader os packPath with Ok files => _ | Err _ => _ end)
    as [description packFormat].
  destruct (calculateFileHash os packPath) as [hash|]; simpl; [|discriminate].
  intros [= <-]. exists stat, hash. repeat split.
Qed.

(** C10: a manifest that decodes to a JSON object with an object field
    [pack] always parses; the description is the empty string (not the
    synthesized default) when [pack] has no string field [description], the
    format is 22 when [pack_format] is absent or not a number, and a pack
    loaded from a directory or an archive with this manifest carries the
    parsed values unchanged. *)
Theorem parsePackMcmeta_pack_object (content : string) (data pack : gmap string JValue) :
  json_Unmarshal content = Ok data ->
  data !! "pack" = Some (JObject pack) ->
  exists info,
    parsePackMcmeta content = Some info /\
    ((forall s, pack !! "description" <> Some (JString s)) -> pi_Description info = "") /\
    ((forall f, pack !! "pack_format" <> Some (JNumber f)) -> pi_PackFormat info = 22) /\
    (forall os dirPath p,
        os_ReadFile os (filepath.Join dirPath "pack.mcmeta") = Ok content ->
        loadDirectoryPack os dirPath = Ok p ->
        Description p = pi_Description info /\ PackFormat p = pi_PackFormat info) /\
    (forall os packPath files file rc p,
        zip_OpenReader os packPath = Ok files ->
        List.find (fun f => String.eqb (zf_Name f) "pack.mcmeta") files = Some file ->
        zf_Open file = Ok rc ->
        ReadAll rc = Ok content ->
        loadZipPack os packPath = Ok p ->
        Description p = pi_Description info /\ PackFormat p = pi_PackFormat info).
Proof.
  intros Hjson Hpack.
  assert (Hparse : parsePackMcmeta content =
            Some {| pi_Description :=
                      match pack !! "description" with
                      | Some (JString desc) => desc
                      | _ => ""
                      end;
                    pi_PackFormat :=
                      match pack !! "pack_format" with
                      | Some (JNumber format) => float64_to_int format
                      | _ => 22
                      end |}).
  { unfold parsePackMcmeta. rewrite Hjson, Hpack. reflexivity. }
  eexists. split; [exact Hparse|]. simpl.
  split; [|split; [|split]].
  - intros Hno. destruct (pack !! "description") as [[]|]; try reflexivity.
    exfalso. eapply Hno. reflexivity.
  - intros Hno. destruct (pack !! "pack_format") as [[]|]; try reflexivity.
    exfalso. eapply Hno. reflexivity.
  - intros os dirPath p Hread Hload.
    apply loadDirectoryPack_inv in Hload as (size & hash & stat & _ & _ & _ & ->).
    rewrite Hread, Hparse. simpl. split; reflexivity.
  - intros os packPath files file rc p Hopen Hfind Hrc Hall Hload.
    apply loadZipPack_inv in Hload as (stat & hash & _ & _ & ->).
    rewrite Hopen, zipManifest_find, Hfind, Hrc, Hall, Hparse. simpl.
    split; reflexivity.
Qed.

End ParseFacts.

Lemma parsePackMcmeta_pack_object_witness :
  @json_Unmarshal demoLib doc_bare = Ok {[ "pack" := JObject ∅ ]} /\
  ({[ "pack" := JObject ∅ ]} : gmap string JValue) !! "pack" = Some (JObject ∅) /\
  exists info,
    @parsePackMcmeta demoLib doc_bare = Some info /\
    pi_Description info = "" /\ pi_PackFormat info = 22.
Proof.
  split; [reflexivity|]. split; [reflexivity|].
  destruct (@parsePackMcmeta_pack_object demoLib doc_bare {[ "pack" := JObject ∅ ]} ∅
              eq_refl eq_refl) as (info & Hparse & Hdesc & Hfmt & _).
  exists info. split; [exact Hparse|]. split.
  - apply Hdesc. intros s. rewrite lookup_empty. discriminate.
  - apply Hfmt. intros f. rewrite lookup_empty. discriminate.
Defined.

(** ** The fingerprint of a directory tree *)

Section Fingerprint.
Context `{GoLib}.

Lemma walk_collects (dirPath : string) (visits : list Visit) (acc : list string) :
  walkFails visits = false ->
  walk_from (collectLine dirPath) visits acc =
  Ok (acc ++ List.map (fileInfoLine dirPath) (filesVisited visits)).
Proof.
  revert acc. induction visits as [|v rest IH]; intros acc Hok; simpl.
  - now rewrite app_nil_r.
  - simpl in Hok. apply orb_false_iff in Hok as [Hv Hrest].
    unfold collectLine at 1. destruct (v_err v); [discriminate|].
    destruct (fi_IsDir (v_info v)); simpl.
    + now apply IH.
    + rewrite IH by exact Hrest. now rewrite <- app_assoc.
Qed.

Lemma calculateDirectoryHash_ok (os : OS) (dirPath : string) :
  walkFails (walk_visits os dirPath) = false ->
  calculateDirectoryHash os dirPath =
  Ok (fmt.x (md5_Sum (strings.Join
        (sort_Strings (List.map (fileInfoLine dirPath) (filesVisited (walk_visits os dirPath))))
        newline))).
Proof.
  intros Hok. unfold calculateDirectoryHash, filepath_Walk.
  change (fun fileInfos v => _) with (collectLine dirPath).
  rewrite walk_collects by exact Hok. reflexivity.
Qed.

Lemma filesVisited_Permutation (l1 l2 : list Visit) :
  Permutation l1 l2 -> Permutation (filesVisited l1) (filesVisited l2).
Proof.
  unfold filesVisited. induction 1; simpl.
  - reflexivity.
  - destruct (negb _); [now apply perm_skip|assumption].
  - repeat destruct (negb _); try reflexivity. apply perm_swap.
  - etransitivity; eassumption.
Qed.

(** C2: the fingerprint of a tree does not depend on the order in which the
    walk yields its entries: two walks of [dirPath] without errors that are
    permutations of each other give the same hexadecimal digest. *)
Theorem calculateDirectoryHash_order_invariant (os1 os2 : OS) (dirPath : string) :
  walkFails (walk_visits os1 dirPath) = false ->
  Permutation (walk_visits os1 dirPath) (walk_visits os2 dirPath) ->
  exists digest,
    calculateDirectoryHash os1 dirPath = Ok digest /\
    calculateDirectoryHash os2 dirPath = Ok digest.
Proof.
  intros Hok Hperm.
  assert (Hok2 : walkFails (walk_visits os2 dirPath) = false).
  { unfold walkFails in *. apply not_true_iff_false. intros Hex.
    apply existsb_exists in Hex as (v & Hin & Hv).
    apply not_true_iff_false in Hok. apply Hok. apply existsb_exists.
    exists v. split; [|exact Hv]. eapply Permutation_in; [symmetry; exact Hperm|exact Hin]. }
  rewrite !calculateDirectoryHash_ok by assumption.
  eexists. split; [reflexivity|]. do 4 f_equal.
  apply sort_Strings_Permutation, Permutation_map, filesVisited_Permutation.
  now symmetry.
Qed.

(** C8: the fingerprint is a function of the metadata of the files only.
    Two runs, on any two trees whose walks yield the same tuples
    [(relativePath, modTimeUnix, sizeBytes)], in any order, give the same
    digest, whatever the files contain: nothing is assumed about what
    [os_Open], [os_ReadFile] or [zip_OpenReader] return on either disk. *)
Theorem calculateDirectoryHash_ignores_contents (os1 os2 : OS) (dirPath1 dirPath2 : string) :
  walkFails (walk_visits os1 dirPath1) = false ->
  walkFails (walk_visits os2 dirPath2) = false ->
  Permutation (List.map (metadata dirPath1) (filesVisited (walk_visits os1 dirPath1)))
              (List.map (metadata dirPath2) (filesVisited (walk_visits os2 dirPath2))) ->
  exists digest,
    calculateDirectoryHash os1 dirPath1 = Ok digest /\
    calculateDirectoryHash os2 dirPath2 = Ok digest.
Proof.
  intros Hok1 Hok2 Hperm.
  rewrite !calculateDirectoryHash_ok by assumption.
  eexists. split; [reflexivity|]. do 4 f_equal.
  apply sort_Strings_Permutation.
  set (line := fun t : string * Z * Z =>
         let '(relPath, modTimeUnix, sizeBytes) := t in
         relPath +:+ ":" +:+ fmt.d modTimeUnix +:+ ":" +:+ fmt.d sizeBytes).
  assert (Hline : forall dirPath l, List.map (fileInfoLine dirPath) l =
                                    List.map line (List.map (metadata dirPath) l)).
  { intros dirPath l. rewrite List.map_map. apply List.map_ext. intros v. reflexivity. }
  rewrite !Hline. apply Permutation_map. now symmetry.
Qed.

End Fingerprint.

Lemma calculateDirectoryHash_order_invariant_witness :
  walk_visits scenario_os "/resourcepacks/bar" <> walk_visits shuffled_os "/resourcepacks/bar" /\
  @calculateDirectoryHash demoLib scenario_os "/resourcepacks/bar"
    = Ok "ed99acea1ae13e1704cfb2508396f681" /\
  @calculateDirectoryHash demoLib shuffled_os "/resourcepacks/bar"
    = Ok "ed99acea1ae13e1704cfb2508396f681".
Proof.
  split; [discriminate|].
  destruct (@calculateDirectoryHash_order_invariant demoLib scenario_os shuffled_os
              "/resourcepacks/bar") as (digest & H1 & H2).
  - reflexivity.
  - simpl. symmetry.
    etransitivity; [apply Permutation_cons_append|]. simpl.
    apply perm_skip. apply perm_swap.
  - assert (Hdigest : digest = "ed99acea1ae13e1704cfb2508396f681").
    { vm_compute in H1. now injection H1 as <-. }
    rewrite H1, H2, Hdigest. split; reflexivity.
Defined.

Lemma calculateDirectoryHash_ignores_contents_witness :
  @calculateFileHash demoLib scenario_os "/resourcepacks/bar/assets/b.png"
    = Ok "36b388426c970b55f582aefb035b4124" /\
  @calculateFileHash demoLib edited_os "/resourcepacks/bar/assets/b.png"
    = Ok "e65c84a82010c445d506e9165710239b" /\
  @calculateDirectoryHash demoLib scenario_os "/resourcepacks/bar"
    = @calculateDirectoryHash demoLib edited_os "/resourcepacks/bar".
Proof.
  split; [vm_compute; reflexivity|]. split; [vm_compute; reflexivity|].
  destruct (@calculateDirectoryHash_ignores_contents demoLib scenario_os edited_os
              "/resourcepacks/bar" "/resourcepacks/bar") as (digest & H1 & H2).
  - reflexivity.
  - reflexivity.
  - reflexivity.
  - now rewrite H1, H2.
Defined.

(** ** The scan *)

Section ScanFacts.
Context `{GoLib}.

Lemma loadDirectoryPack_IsDirectory (os : OS) (dirPath : string) (p : ResourcePack) :
  loadDirectoryPack os dirPath = Ok p ->
  IsDirectory p = true /\ Path p = dirPath /\ Name p = filepath.Base dirPath.
Proof.
  unfold loadDirectoryPack.
  destruct (match os_ReadFile os _ with Ok content => _ | Err _ => _ end) as [d f].
  destruct (calculateDirectorySize os dirPath); simpl; [|discriminate].
  destruct (calculateDirectoryHash os dirPath); simpl; [|discriminate].
  destruct (os_Stat os dirPath); simpl; [|discriminate].
  intros [= <-]. repeat split.
Qed.

Lemma loadZipPack_IsDirectory (os : OS) (packPath : string) (p : ResourcePack) :
  loadZipPack os packPath = Ok p ->
  IsDirectory p = false /\ Path p = packPath /\
  Name p = strings.TrimSuffix (filepath.Base packPath) ".zip".
Proof.
  unfold loadZipPack.
  destruct (os_Stat os packPath); simpl; [|discriminate].
  destruct (match zip_OpenReader os packPath with Ok files => _ | Err _ => _ end) as [d f].
  destruct (calculateFileHash os packPath); simpl; [|discriminate].
  intros [= <-]. repeat split.
Qed.

(** One turn of the loop either keeps the candidate of the entry or leaves
    the manager as it is. *)
Lemma scanEntry_candidate (os : OS) (pm : PacksManager) (entry : DirEntry) :
  scanEntry os pm entry =
  match entryCandidate os (packsDirectory pm) entry with
  | Some p => log InfoLevel (log_msg (discoveryOf p)) (log_fields (discoveryOf p)) (store p pm)
  | None => pm
  end.
Proof.
  unfold scanEntry, entryCandidate.
  destruct (de_IsDir entry).
  - destruct (isResourcePackDirectory os _); [|reflexivity].
    destruct (loadDirectoryPack os _) as [p|] eqn:Hload; [|reflexivity].
    apply loadDirectoryPack_IsDirectory in Hload as (Hdir & _). simpl.
    unfold discoveryOf. rewrite Hdir. reflexivity.
  - destruct (strings.HasSuffix _ _); [|reflexivity].
    destruct (loadZipPack os _) as [p|] eqn:Hload; [|reflexivity].
    apply loadZipPack_IsDirectory in Hload as (Hdir & _). simpl.
    unfold discoveryOf. rewrite Hdir. reflexivity.
Qed.

Lemma scanEntry_packsDirectory (os : OS) (pm : PacksManager) (entry : DirEntry) :
  packsDirectory (scanEntry os pm entry) = packsDirectory pm.
Proof.
  rewrite scanEntry_candidate. destruct (entryCandidate _ _ _); reflexivity.
Qed.

Lemma lastNamed_app (name : string) (l1 l2 : list ResourcePack) :
  lastNamed name (l1 ++ l2) =
  match lastNamed name l2 with Some p => Some p | None => lastNamed name l1 end.
Proof.
  unfold lastNamed. rewrite rev_app_distr.
  induction (rev l2) as [|p r IH]; simpl; [reflexivity|].
  destruct (String.eqb (Name p) name); [reflexivity|exact IH].
Qed.

Lemma isDiscovery_discoveryOf (p : ResourcePack) : isDiscovery (discoveryOf p) = true.
Proof. unfold isDiscovery, discoveryOf. simpl. destruct (IsDirectory p); reflexivity. Qed.

(** The loop over the entries: the index ends with, under each name, the
    last candidate of that name, and the log gains one discovery per
    candidate, in the order of the entries. *)
Lemma scanEntries_fold (os : OS) (entries : list DirEntry) (pm : PacksManager) :
  let pm' := fold_left (scanEntry os) entries pm in
  let loaded := omap (entryCandidate os (packsDirectory pm)) entries in
  packsDirectory pm' = packsDirectory pm /\
  lastScanTime pm' = lastScanTime pm /\
  (forall name,
      packs pm' !! name =
      match lastNamed name loaded with Some p => Some p | None => packs pm !! name end) /\
  discoveries (logger pm') = discoveries (logger pm) ++ List.map discoveryOf loaded /\
  scansStarted (logger pm') = scansStarted (logger pm).
Proof.
  revert pm. induction entries as [|entry rest IH]; intros pm; simpl.
  - repeat split. now rewrite app_nil_r.
  - specialize (IH (scanEntry os pm entry)). simpl in IH.
    destruct IH as (Hdir & Htime & Hpacks & Hlog & Hscans).
    rewrite scanEntry_packsDirectory in Hdir, Hpacks, Hlog.
    rewrite Hdir, Htime, Hlog, Hscans. clear Hdir Htime Hlog Hscans.
    rewrite scanEntry_candidate in *.
    destruct (entryCandidate os (packsDirectory pm) entry) as [p|] eqn:Hcand; simpl.
    + split; [reflexivity|]. split; [reflexivity|]. split; [|split].
      * intros name. rewrite Hpacks. simpl.
        change (p :: ?l) with ([p] ++ l). rewrite lastNamed_app.
        destruct (lastNamed name _); [reflexivity|].
        unfold lastNamed. simpl.
        destruct (String.eqb_spec (Name p) name) as [->|Hne].
        -- apply lookup_insert_eq.
        -- now apply lookup_insert_ne.
      * unfold discoveries. rewrite List.filter_app. simpl.
        pose proof (isDiscovery_discoveryOf p) as Hd. unfold discoveryOf in Hd.
        rewrite Hd. rewrite <- app_assoc. reflexivity.
      * unfold scansStarted. rewrite List.filter_app. simpl.
        destruct (IsDirectory p); simpl; now rewrite app_nil_r.
    + repeat split. exact Hpacks.
Qed.

Lemma scanEntries_fold_cooldown (os : OS) (entries : list DirEntry) (pm : PacksManager) :
  scanCooldown (fold_left (scanEntry os) entries pm) = scanCooldown pm.
Proof.
  revert pm. induction entries as [|entry rest IH]; intros pm; simpl; [reflexivity|].
  rewrite IH, scanEntry_candidate. destruct (entryCandidate _ _ _); reflexivity.
Qed.

Lemma scanEntries_fold_tempDir (os : OS) (entries : list DirEntry) (pm : PacksManager) :
  tempDir (fold_left (scanEntry os) entries pm) = tempDir pm.
Proof.
  revert pm. induction entries as [|entry rest IH]; intros pm; simpl; [reflexivity|].
  rewrite IH, scanEntry_candidate. destruct (entryCandidate _ _ _); reflexivity.
Qed.

Lemma quiet_refl (pm : PacksManager) : quiet pm pm.
Proof. now repeat split. Qed.

Lemma quiet_trans (pm1 pm2 pm3 : PacksManager) :
  quiet pm1 pm2 -> quiet pm2 pm3 -> quiet pm1 pm3.
Proof.
  unfold quiet. intros (?&?&?&?&?&?&?) (?&?&?&?&?&?&?). repeat split; congruence.
Qed.

Lemma log_quiet (lvl : Level) (msg : string) (fields : list Field) (pm : PacksManager) :
  isDiscovery {| log_level := lvl; log_msg := msg; log_fields := fields |} = false ->
  String.eqb msg "开始扫描资源包目录" = false ->
  quiet pm (log lvl msg fields pm).
Proof.
  intros Hd Hs. unfold quiet, discoveries, scansStarted. simpl.
  rewrite !List.filter_app. simpl. rewrite Hd, Hs, !app_nil_r. now repeat split.
Qed.

Lemma quiet_if (c : bool) (pm pm' : PacksManager) :
  quiet pm pm' -> quiet pm (if c then pm' else pm).
Proof. destruct c; [trivial|intros _; apply quiet_refl]. Qed.

Lemma rootCandidate_keep (os : OS) (pm : PacksManager) :
  (if isResourcePackDirectory os (packsDirectory pm)
   then keep "发现根目录资源包" (loadDirectoryPack os (packsDirectory pm)) pm
   else pm) =
  match rootCandidate os (packsDirectory pm) with
  | Some p => log InfoLevel "发现根目录资源包" [zap_String "name" (Name p)] (store p pm)
  | None => pm
  end.
Proof.
  unfold rootCandidate. destruct (isResourcePackDirectory _ _); [|reflexivity].
  destruct (loadDirectoryPack _ _); reflexivity.
Qed.

(** What a scan leaves behind, on both of its exits. *)
Lemma scanPacks_reading (os : OS) (now : Time) (pm : PacksManager) :
  let root := packsDirectory pm in
  let pm' := (scanPacks os now pm).1 in
  packsDirectory pm' = root /\
  scanCooldown pm' = scanCooldown pm /\
  tempDir pm' = tempDir pm /\
  (forall name, packs pm' !! name = lastNamed name (loadSequence os root)) /\
  discoveries (logger pm') = discoveries (logger pm) ++ discoverySequence os root /\
  scansStarted (logger pm') = S (scansStarted (logger pm)) /\
  (scanPacks os now pm).2 =
    match os_ReadDir os root with
    | Ok _ => None
    | Err err => Some (Wrapped "读取目录失败" err)
    end /\
  lastScanTime pm' =
    match os_ReadDir os root with Ok _ => now | Err _ => lastScanTime pm end.
Proof.
  intros root pm'. subst pm'. unfold scanPacks.
  set (pm0 := log InfoLevel "开始扫描资源包目录" _ (set_packs pm ∅)).
  change (packsDirectory (set_packs pm ∅)) with (packsDirectory pm0).
  rewrite (rootCandidate_keep os pm0).
  change (packsDirectory pm0) with root.
  assert (Hstart : scansStarted (logger pm0) = S (scansStarted (logger pm))).
  { unfold pm0, scansStarted. simpl. rewrite List.filter_app, length_app. simpl. lia. }
  assert (Hdisc0 : discoveries (logger pm0) = discoveries (logger pm)).
  { unfold pm0, discoveries. simpl. rewrite List.filter_app. simpl. apply app_nil_r. }
  assert (Hpm0 : packsDirectory pm0 = root /\ scanCooldown pm0 = scanCooldown pm /\
                 tempDir pm0 = tempDir pm /\ lastScanTime pm0 = lastScanTime pm /\
                 packs pm0 = ∅) by now repeat split.
  destruct Hpm0 as (Hdir0 & Hcool0 & Htemp0 & Htime0 & Hpacks0).
  set (pm1 := match rootCandidate os root with Some p => _ | None => pm0 end).
  clearbody pm0.
  assert (Hpm1 : packsDirectory pm1 = root /\ scanCooldown pm1 = scanCooldown pm /\
                 tempDir pm1 = tempDir pm /\ lastScanTime pm1 = lastScanTime pm /\
                 (forall name, packs pm1 !! name =
                    lastNamed name (match rootCandidate os root with
                                    | Some p => [p] | None => [] end)) /\
                 discoveries (logger pm1) =
                   discoveries (logger pm) ++
                   match rootCandidate os root with
                   | Some p => [rootDiscoveryOf p] | None => [] end /\
                 scansStarted (logger pm1) = S (scansStarted (logger pm))).
  { subst pm1. destruct (rootCandidate os root) as [p|]; simpl.
    - repeat split; try assumption.
      + intros name. unfold lastNamed. simpl. rewrite Hpacks0.
        destruct (String.eqb_spec (Name p) name) as [->|Hne].
        * apply lookup_insert_eq.
        * rewrite lookup_insert_ne by exact Hne. apply lookup_empty.
      + unfold discoveries in *. rewrite List.filter_app, Hdisc0. reflexivity.
      + unfold scansStarted in *. rewrite List.filter_app, length_app, Hstart. simpl. lia.
    - repeat split; try assumption.
      + intros name. rewrite Hpacks0. apply lookup_empty.
      + now rewrite app_nil_r. }
  clearbody pm1. clear pm0 Hstart Hdisc0 Hdir0 Hcool0 Htemp0 Htime0 Hpacks0.
  destruct Hpm1 as (Hdir & Hcool & Htemp & Htime & Hpacks & Hdisc & Hscans).
  rewrite Hdir. unfold loadSequence, discoverySequence, entriesRead.
  destruct (os_ReadDir os root) as [entries|err]; cbn [fst snd].
  - destruct (scanEntries_fold os entries pm1) as (Hdir' & Htime' & Hpacks' & Hdisc' & Hscans').
    pose proof (scanEntries_fold_cooldown os entries pm1) as Hcool'.
    pose proof (scanEntries_fold_tempDir os entries pm1) as Htemp'.
    set (pm2 := fold_left (scanEntry os) entries pm1) in *.
    rewrite Hdir in *.
    match goal with
    | |- context [set_lastScanTime (log InfoLevel ?msg ?fields ?pm4) now] =>
        assert (Hq : quiet pm2 (log InfoLevel msg fields pm4));
        [|generalize dependent (log InfoLevel msg fields pm4)]
    end.
    { eapply quiet_trans; [|apply log_quiet; reflexivity].
      eapply quiet_trans; [|apply quiet_if, log_quiet; reflexivity].
      apply quiet_if, log_quiet; reflexivity. }
    intros pm5 (Hp5 & Hr5 & Hc5 & Ht5 & _ & Hd5 & Hs5). simpl.
    rewrite Hr5, Hc5, Ht5, Hd5, Hs5, Hdir', Hcool', Htemp', Hdisc', Hscans', Hdisc, Hscans.
    repeat split; try assumption.
    + intros name. rewrite Hp5, Hpacks', Hpacks, lastNamed_app. reflexivity.
    + now rewrite <- app_assoc.
  - rewrite !app_nil_r. repeat split; assumption.
Qed.

End ScanFacts.

Section ScanClaims.
Context `{GoLib}.

(** When the directory cannot be listed the scan returns the wrapped error,
    and the index holds the pack of the root directory if it loaded and
    nothing else: what was indexed before is gone. *)
Lemma scanPacks_ReadDir_error (os : OS) (now : Time) (pm : PacksManager) (err : error) :
  os_ReadDir os (packsDirectory pm) = Err err ->
  (scanPacks os now pm).2 = Some (Wrapped "读取目录失败" err) /\
  lastScanTime (scanPacks os now pm).1 = lastScanTime pm /\
  forall name,
    packs (scanPacks os now pm).1 !! name =
    match rootCandidate os (packsDirectory pm) with
    | Some p => if String.eqb (Name p) name then Some p else None
    | None => None
    end.
Proof.
  intros Herr.
  destruct (scanPacks_reading os now pm) as (_ & _ & _ & Hpacks & _ & _ & Hres & Htime).
  rewrite Herr in Hres, Htime. split; [exact Hres|]. split; [exact Htime|].
  intros name. rewrite Hpacks. unfold loadSequence, entriesRead, lastNamed.
  rewrite Herr. simpl. destruct (rootCandidate _ _); reflexivity.
Qed.

(** C1 (the code departs from the claim): the manager serves [foo]; the
    directory can no longer be listed; the scan returns the error, and the
    index it leaves is empty instead of the one it had. *)
Theorem scanPacks_unreadable_root_empties_index :
  let os := unlistable scenario_os EACCES in
  let result := scanPacks os (1700000100 * time.Second) serving_pm in
  GetPack serving_pm "foo" = Some foo_pack /\
  result.2 = Some (Wrapped "读取目录失败" EACCES) /\
  packs result.1 = ∅ /\
  GetPack result.1 "foo" = None /\
  GetAllPacks result.1 = [].
Proof.
  intros os result.
  destruct (scanPacks_ReadDir_error os (1700000100 * time.Second) serving_pm EACCES eq_refl)
    as (Herr & _ & Hpacks).
  assert (Hempty : packs result.1 = ∅).
  { apply map_eq. intros name. subst result. rewrite Hpacks, lookup_empty. reflexivity. }
  split; [reflexivity|]. split; [exact Herr|]. split; [exact Hempty|].
  unfold GetPack, GetAllPacks. rewrite Hempty. split; [apply lookup_empty|].
  now rewrite map_to_list_empty.
Qed.

(** C5, as amended: a scan loads the root directory first and then the
    entries of the root in the order of the enumeration, each as the
    directory or the archive that it is, the two kinds interleaved as
    enumerated; the log reports the loaded packs in that order, and the index
    holds under each name the last pack of that name in that order. *)
Theorem scanPacks_load_order (os : OS) (now : Time) (pm : PacksManager) :
  let pm' := (scanPacks os now pm).1 in
  discoveries (logger pm') =
    discoveries (logger pm) ++ discoverySequence os (packsDirectory pm) /\
  forall name, GetPack pm' name = lastNamed name (loadSequence os (packsDirectory pm)).
Proof.
  destruct (scanPacks_reading os now pm) as (_ & _ & _ & Hpacks & Hdisc & _).
  split; [exact Hdisc|exact Hpacks].
Qed.

(** C7: a manual rescan always scans.  [RescanPacks] is [scanPacks]; it
    starts one scan whatever [lastScanTime] and [scanCooldown] are, and its
    error and the index it leaves do not depend on them. *)
Theorem RescanPacks_bypasses_cooldown (os : OS) (now : Time) (pm : PacksManager)
    (last : Time) (cooldown : Duration) :
  let gated := set_gate pm last cooldown in
  RescanPacks os now gated = scanPacks os now gated /\
  scansStarted (logger (RescanPacks os now gated).1) = S (scansStarted (logger pm)) /\
  scansStarted (logger (rescanPacksHandler os now gated)) = S (scansStarted (logger pm)) /\
  (RescanPacks os now gated).2 = (RescanPacks os now pm).2 /\
  packs (RescanPacks os now gated).1 = packs (RescanPacks os now pm).1.
Proof.
  intros gated. unfold RescanPacks, rescanPacksHandler, RescanPacks.
  destruct (scanPacks_reading os now gated) as (_ & _ & _ & Hpacks & _ & Hscans & Hres & _).
  destruct (scanPacks_reading os now pm) as (_ & _ & _ & Hpacks' & _ & _ & Hres' & _).
  split; [reflexivity|]. split; [exact Hscans|]. split; [|split].
  - destruct (scanPacks os now gated) as [pm' [err|]]; simpl in *; [|exact Hscans].
    unfold scansStarted in *. rewrite List.filter_app, length_app. simpl.
    rewrite Hscans. lia.
  - rewrite Hres, Hres'. reflexivity.
  - apply map_eq. intros name. rewrite Hpacks, Hpacks'. reflexivity.
Qed.

End ScanClaims.

(** C5 (the claim as worded fails): on a disk whose enumeration yields the
    archive [a.zip] before the directory [b], the scan loads the archive
    first, where the worded order puts every subdirectory before every
    archive. *)
Lemma scanPacks_order_counterexample :
  let pm' := (@scanPacks demoLib interleaved_os 1700000100000000000
                (fresh_pm (2 * time.Second))).1 in
  List.map log_msg (discoveries (logger pm')) = ["发现ZIP资源包"; "发现子目录资源包"] /\
  List.map Name (@loadSequence demoLib interleaved_os "/resourcepacks") = ["a"; "b"] /\
  List.map Name (@specLoadSequence demoLib interleaved_os "/resourcepacks") = ["b"; "a"] /\
  discoveries (logger pm') <>
    List.map discoveryOf (@specLoadSequence demoLib interleaved_os "/resourcepacks").
Proof.
  vm_compute. repeat split; try reflexivity. discriminate.
Qed.

Lemma lastNamed_In (name : string) (l : list ResourcePack) (p : ResourcePack) :
  lastNamed name l = Some p -> In p l /\ Name p = name.
Proof.
  unfold lastNamed. intros Hfind. apply find_some in Hfind as [Hin Heq].
  split; [now apply in_rev|now apply String.eqb_eq].
Qed.

Lemma lastNamed_None (name : string) (l : list ResourcePack) :
  (forall q, In q l -> Name q <> name) -> lastNamed name l = None.
Proof.
  intros Hall. unfold lastNamed.
  destruct (List.find _ (rev l)) as [q|] eqn:Hfind; [|reflexivity].
  apply find_some in Hfind as [Hin Heq]. apply String.eqb_eq in Heq.
  exfalso. eapply Hall; [|exact Heq]. now apply in_rev.
Qed.

Lemma compare_Lt_irrefl (s : string) : String.compare s s <> Lt.
Proof. rewrite compare_refl. discriminate. Qed.

Lemma compare_Lt_asym (a b : string) :
  String.compare a b = Lt -> String.compare b a <> Lt.
Proof. intros Hab. rewrite String.compare_antisym, Hab. discriminate. Qed.

Section MissingManifest.
Context `{GoLib}.

(** A directory pack that a scan loads has a manifest at its path. *)
Lemma loadSequence_directories (os : OS) (root : string) (p : ResourcePack) :
  In p (loadSequence os root) -> IsDirectory p = true ->
  isResourcePackDirectory os (Path p) = true.
Proof.
  unfold loadSequence. intros Hin Hdir. apply in_app_or in Hin as [Hin|Hin].
  - unfold rootCandidate in Hin.
    destruct (isResourcePackDirectory os root) eqn:Hroot; [|contradiction].
    destruct (loadDirectoryPack os root) as [q|] eqn:Hload; [|contradiction].
    destruct Hin as [->|[]].
    apply loadDirectoryPack_IsDirectory in Hload as (_ & -> & _). exact Hroot.
  - apply list_elem_of_In, list_elem_of_omap in Hin as (e & _ & Hcand).
    unfold entryCandidate in Hcand. destruct (de_IsDir e).
    + destruct (isResourcePackDirectory os _) eqn:Hentry; [|discriminate].
      destruct (loadDirectoryPack os _) as [q|] eqn:Hload; [|discriminate].
      injection Hcand as ->.
      apply loadDirectoryPack_IsDirectory in Hload as (_ & -> & _). exact Hentry.
    + destruct (strings.HasSuffix _ _); [|discriminate].
      destruct (loadZipPack os _) as [q|] eqn:Hload; [|discriminate].
      injection Hcand as ->.
      apply loadZipPack_IsDirectory in Hload as (Hzip & _). congruence.
Qed.

(** The name under which the candidate of an entry is indexed. *)
Lemma entryCandidate_Name (os : OS) (root : string) (e : DirEntry) (p : ResourcePack) :
  properName (de_Name e) ->
  entryCandidate os root e = Some p ->
  Name p = if de_IsDir e then de_Name e else strings.TrimSuffix (de_Name e) ".zip".
Proof.
  intros Hname. unfold entryCandidate. destruct (de_IsDir e).
  - destruct (isResourcePackDirectory os _); [|discriminate].
    destruct (loadDirectoryPack os _) as [q|] eqn:Hload; [|discriminate].
    intros [= <-]. apply loadDirectoryPack_IsDirectory in Hload as (_ & _ & ->).
    now apply Base_Join.
  - destruct (strings.HasSuffix _ _); [|discriminate].
    destruct (loadZipPack os _) as [q|] eqn:Hload; [|discriminate].
    intros [= <-]. apply loadZipPack_IsDirectory in Hload as (_ & _ & ->).
    now rewrite Base_Join.
Qed.

(** An archive without a manifest loads with the synthesized description and
    format 22. *)
Lemma loadZipPack_noManifest (os : OS) (packPath : string) (stat : FileInfo) (hash : string) :
  os_Stat os packPath = Ok stat ->
  noManifest os packPath ->
  calculateFileHash os packPath = Ok hash ->
  loadZipPack os packPath =
  Ok {| Name := strings.TrimSuffix (filepath.Base packPath) ".zip";
        Path := packPath;
        Description :=
          "Resource Pack: " +:+ strings.TrimSuffix (filepath.Base packPath) ".zip";
        PackFormat := 22; Size := fi_Size stat; Hash := hash;
        LastModified := fi_ModTime stat; IsDirectory := false |}.
Proof.
  intros Hstat Hnone Hhash. unfold loadZipPack, noManifest in *.
  rewrite Hstat, Hhash. simpl.
  destruct (zip_OpenReader os packPath) as [files|]; [|reflexivity].
  rewrite zipManifest_find, Hnone. reflexivity.
Qed.

(** In a listing sorted by name no entry after [name.zip] is indexed under
    [name]. *)
Lemma later_entries_other_names (os : OS) (root : string) (e : DirEntry)
    (later : list DirEntry) (q : ResourcePack) :
  sortedByName (e :: later) -> properNames later ->
  strings.HasSuffix (de_Name e) ".zip" = true ->
  In q (omap (entryCandidate os root) later) ->
  Name q <> strings.TrimSuffix (de_Name e) ".zip".
Proof.
  intros Hsorted Hproper Hzip Hin Hname.
  apply list_elem_of_In, list_elem_of_omap in Hin as (e' & Hin' & Hcand).
  apply list_elem_of_In in Hin'.
  inversion Hsorted as [|? ? _ Hlt]; subst.
  unfold properNames in Hproper.
  rewrite List.Forall_forall in Hlt, Hproper.
  specialize (Hlt e' Hin'). specialize (Hproper e' Hin').
  apply HasSuffix_TrimSuffix in Hzip.
  rewrite (entryCandidate_Name os root e' q Hproper Hcand) in Hname.
  destruct (de_IsDir e') eqn:Hdir.
  - rewrite Hzip, Hname in Hlt.
    eapply compare_Lt_asym; [exact Hlt|]. now apply compare_append_Lt.
  - assert (Hzip' : strings.HasSuffix (de_Name e') ".zip" = true).
    { unfold entryCandidate in Hcand. rewrite Hdir in Hcand.
      destruct (strings.HasSuffix _ _); [reflexivity|discriminate]. }
    apply HasSuffix_TrimSuffix in Hzip'. rewrite Hname, <- Hzip in Hzip'.
    rewrite Hzip' in Hlt. now apply compare_Lt_irrefl in Hlt.
Qed.

(** C3: candidates without a manifest.  A subdirectory without a top-level
    [pack.mcmeta] is skipped: its turn of the loop leaves the manager as it
    is; and after a scan no directory pack of the index has the path of a
    directory without a top-level [pack.mcmeta].  An archive [name.zip]
    without a member [pack.mcmeta] (its stat and its hash succeeding, in a
    listing sorted by name as [os.ReadDir] returns it) is in the index under
    [name], with the description [Resource Pack: name] and format 22. *)
Theorem missing_manifest :
  (forall os pm entry,
      de_IsDir entry = true ->
      isResourcePackDirectory os (filepath.Join (packsDirectory pm) (de_Name entry)) = false ->
      scanEntry os pm entry = pm) /\
  (forall os now pm dirPath name p,
      isResourcePackDirectory os dirPath = false ->
      GetPack (scanPacks os now pm).1 name = Some p ->
      IsDirectory p = true ->
      Path p <> dirPath) /\
  (forall os now pm entries entry stat hash,
      let packPath := filepath.Join (packsDirectory pm) (de_Name entry) in
      let name := strings.TrimSuffix (de_Name entry) ".zip" in
      os_ReadDir os (packsDirectory pm) = Ok entries ->
      sortedByName entries ->
      properNames entries ->
      In entry entries ->
      de_IsDir entry = false ->
      strings.HasSuffix (de_Name entry) ".zip" = true ->
      os_Stat os packPath = Ok stat ->
      noManifest os packPath ->
      calculateFileHash os packPath = Ok hash ->
      GetPack (scanPacks os now pm).1 name =
      Some {| Name := name; Path := packPath;
              Description := "Resource Pack: " +:+ name; PackFormat := 22;
              Size := fi_Size stat; Hash := hash; LastModified := fi_ModTime stat;
              IsDirectory := false |}).
Proof.
  split; [|split].
  - intros os pm entry Hdir Hnone. unfold scanEntry. now rewrite Hdir, Hnone.
  - intros os now pm dirPath name p Hnone Hget Hpdir Hpath.
    destruct (scanPacks_reading os now pm) as (_ & _ & _ & Hpacks & _).
    unfold GetPack in Hget. rewrite Hpacks in Hget.
    apply lastNamed_In in Hget as [Hin _].
    apply loadSequence_directories in Hin; [|exact Hpdir].
    rewrite Hpath in Hin. congruence.
  - intros os now pm entries entry stat hash packPath name
      Hread Hsorted Hproper Hin Hfile Hzip Hstat Hnone Hhash.
    destruct (scanPacks_reading os now pm) as (_ & _ & _ & Hpacks & _).
    unfold GetPack. rewrite Hpacks. clear Hpacks.
    unfold loadSequence, entriesRead. rewrite Hread.
    apply in_split in Hin as (before & later & ->).
    assert (Hentry : properName (de_Name entry)).
    { unfold properNames in Hproper. rewrite List.Forall_forall in Hproper.
      apply Hproper. apply in_elt. }
    assert (Hcand : entryCandidate os (packsDirectory pm) entry =
              Some {| Name := name; Path := packPath;
                      Description := "Resource Pack: " +:+ name; PackFormat := 22;
                      Size := fi_Size stat; Hash := hash; LastModified := fi_ModTime stat;
                      IsDirectory := false |}).
    { unfold entryCandidate. rewrite Hfile, Hzip. fold packPath.
      rewrite (loadZipPack_noManifest os packPath stat hash Hstat Hnone Hhash).
      unfold packPath. rewrite Base_Join by exact Hentry. reflexivity. }
    set (p := {| Name := name; Path := packPath |}) in *.
    assert (Homap : omap (entryCandidate os (packsDirectory pm)) (entry :: later) =
                    [p] ++ omap (entryCandidate os (packsDirectory pm)) later).
    { cbn [omap list_omap]. now rewrite Hcand. }
    rewrite omap_app, Homap, !lastNamed_app.
    rewrite (lastNamed_None name (omap _ later)).
    + unfold lastNamed. simpl. now rewrite String.eqb_refl.
    + intros q Hq.
      apply (later_entries_other_names os (packsDirectory pm) entry later q);
        [| |exact Hzip|exact Hq].
      * unfold sortedByName in *. clear - Hsorted.
        induction before as [|b before IH]; [exact Hsorted|].
        apply IH. now inversion Hsorted.
      * unfold properNames in *. apply Forall_app in Hproper as [_ Hproper].
        now inversion Hproper.
Qed.

End MissingManifest.

Lemma missing_manifest_witness :
  let pm' := (@scanPacks demoLib bare_os 1700000100000000000 (fresh_pm (2 * time.Second))).1 in
  isResourcePackDirectory bare_os "/resourcepacks/plain" = false /\
  @scanEntry demoLib bare_os (fresh_pm (2 * time.Second))
    {| de_Name := "plain"; de_IsDir := true |} = fresh_pm (2 * time.Second) /\
  GetPack pm' "plain" = None /\
  (forall name p, GetPack pm' name = Some p -> IsDirectory p = true ->
                  Path p <> "/resourcepacks/plain") /\
  GetPack pm' "textures" =
    Some {| Name := "textures"; Path := "/resourcepacks/textures.zip";
            Description := "Resource Pack: textures"; PackFormat := 22; Size := 4096;
            Hash := "3c9b2e819965ad09bed218a21f333cb3";
            LastModified := 1700000002000000000; IsDirectory := false |}.
Proof.
  intros pm'. destruct (@missing_manifest demoLib) as (Hskip & Hnever & Hzip).
  split; [reflexivity|]. split; [|split; [|split]].
  - apply Hskip; reflexivity.
  - vm_compute. reflexivity.
  - intros name p. apply (Hnever bare_os _ _ "/resourcepacks/plain"). reflexivity.
  - apply (Hzip bare_os 1700000100000000000 (fresh_pm (2 * time.Second))
             [{| de_Name := "plain"; de_IsDir := true |};
              {| de_Name := "textures.zip"; de_IsDir := false |}]
             {| de_Name := "textures.zip"; de_IsDir := false |}
             (aFile "textures.zip" 4096 1700000002000000000)
             "3c9b2e819965ad09bed218a21f333cb3").
    + reflexivity.
    + repeat constructor.
    + repeat constructor; discriminate.
    + right. now left.
    + reflexivity.
    + reflexivity.
    + reflexivity.
    + reflexivity.
    + vm_compute. reflexivity.
Defined.

(** ** The watcher *)

Section Watcher.
Context `{GoLib}.

Lemma Since_same (t : Time) : time.Since t t = 0.
Proof.
  unfold time.Since, time.Sub, time.minDuration, time.maxDuration.
  rewrite Z.sub_diag. reflexivity.
Qed.

Lemma handleFileEvent_suppressed (os : OS) (event : Event) (now : Time) (takes : Duration)
    (pm : PacksManager) :
  time.Since now (lastScanTime pm) < scanCooldown pm ->
  handleFileEvent os event now takes pm = (pm, now).
Proof.
  intros Hcool. unfold handleFileEvent.
  apply Z.ltb_lt in Hcool. rewrite Hcool. reflexivity.
Qed.

Lemma handleFileEvent_scans (os : OS) (event : Event) (now : Time) (takes : Duration)
    (pm : PacksManager) :
  scanCooldown pm <= time.Since now (lastScanTime pm) ->
  let result := handleFileEvent os event now takes pm in
  let finished := now + 500 * time.Millisecond + takes in
  result.2 = finished /\
  scansStarted (logger result.1) = S (scansStarted (logger pm)) /\
  scanCooldown result.1 = scanCooldown pm /\
  packsDirectory result.1 = packsDirectory pm /\
  packs result.1 = packs (scanPacks os finished pm).1 /\
  lastScanTime result.1 =
    match os_ReadDir os (packsDirectory pm) with
    | Ok _ => finished
    | Err _ => lastScanTime pm
    end.
Proof.
  intros Hcool result finished. subst result. unfold handleFileEvent.
  apply Z.ltb_ge in Hcool. rewrite Hcool. fold finished.
  destruct (scanPacks_reading os finished pm)
    as (Hdir & Hcd & _ & _ & _ & Hscans & Hres & Htime).
  destruct (scanPacks os finished pm) as [pm' err]. simpl in *.
  rewrite <- Htime.
  destruct err as [err|]; simpl; repeat split; try assumption.
  unfold scansStarted in *. rewrite List.filter_app, length_app. simpl. lia.
Qed.

(** C6, as amended: a notification handled while
    [time.Since(lastScanTime) < scanCooldown] starts no scan and leaves the
    manager as it is.  With a cooldown of two seconds and two notifications
    half a second apart, handled in turn by the one watcher goroutine: when
    the first is handled outside the cooldown window and the directory can be
    listed, exactly one scan starts (the second notification is discarded);
    when both are handled inside the window, none does. *)
Theorem handleFileEvent_cooldown :
  (forall os event now takes pm,
      time.Since now (lastScanTime pm) < scanCooldown pm ->
      handleFileEvent os event now takes pm = (pm, now)) /\
  (forall os1 os2 clock first takes1 takes2 pm,
      scanCooldown pm = 2 * time.Second ->
      0 <= takes1 ->
      scanCooldown pm <= time.Since (Z.max clock first) (lastScanTime pm) ->
      is_Ok (os_ReadDir os1 (packsDirectory pm)) = true ->
      let pm' := (monitorLoop clock (twoNotifications first os1 os2 takes1 takes2) pm).1 in
      scansStarted (logger pm') = S (scansStarted (logger pm)) /\
      packs pm' =
        packs (scanPacks os1 (Z.max clock first + 500 * time.Millisecond + takes1) pm).1) /\
  (forall os1 os2 clock first takes1 takes2 pm,
      time.Since (Z.max clock first) (lastScanTime pm) < scanCooldown pm ->
      time.Since (Z.max clock (first + 500 * time.Millisecond)) (lastScanTime pm)
        < scanCooldown pm ->
      (monitorLoop clock (twoNotifications first os1 os2 takes1 takes2) pm).1 = pm).
Proof.
  split; [|split].
  - intros. now apply handleFileEvent_suppressed.
  - intros os1 os2 clock first takes1 takes2 pm Htwo Htakes Hout Hlist pm'.
    subst pm'. unfold twoNotifications, monitorLoop, notification. simpl.
    pose proof (handleFileEvent_scans os1 {| ev_Name := "/resourcepacks/foo.zip"; ev_Op := 2 |}
                  (Z.max clock first) takes1 pm Hout) as Hfirst.
    simpl in Hfirst.
    destruct (handleFileEvent os1 _ (Z.max clock first) takes1 pm) as [pm1 clock1].
    simpl in Hfirst. destruct Hfirst as (Hclock & Hscans & Hcd & _ & Hpacks & Htime).
    destruct (os_ReadDir os1 (packsDirectory pm)); [|discriminate].
    assert (Hmax : Z.max clock1 (first + 500 * time.Millisecond) = clock1).
    { unfold time.Millisecond in *. lia. }
    rewrite Hmax, handleFileEvent_suppressed.
    + simpl. split; [exact Hscans|exact Hpacks].
    + rewrite Htime, Hclock, Since_same, Hcd, Htwo. reflexivity.
  - intros os1 os2 clock first takes1 takes2 pm Hin1 Hin2.
    unfold twoNotifications, monitorLoop, notification. simpl.
    rewrite handleFileEvent_suppressed by exact Hin1.
    assert (Hmax : Z.max (Z.max clock first) (first + 500 * time.Millisecond)
                   = Z.max clock (first + 500 * time.Millisecond)).
    { unfold time.Millisecond. lia. }
    rewrite Hmax, handleFileEvent_suppressed by exact Hin2. reflexivity.
Qed.

End Watcher.

(** C6 (the claim as worded fails): with a cooldown of two seconds, two
    notifications half a second apart start no scan when both are handled
    inside the cooldown window, and start two scans when the directory cannot
    be listed (a failed scan does not record its time); the claim promises
    one scan in both cases. *)
Lemma cooldown_counterexample :
  let t0 := 1700000010 * time.Second in
  scanCooldown serving_pm = 2 * time.Second /\
  lastScanTime serving_pm = t0 /\
  scansStarted
    (logger (@monitorLoop demoLib (t0 + 100 * time.Millisecond)
               (twoNotifications (t0 + 100 * time.Millisecond) scenario_os scenario_os 0 0)
               serving_pm).1) = 0%nat /\
  scansStarted
    (logger (@monitorLoop demoLib (t0 + 5 * time.Second)
               (twoNotifications (t0 + 5 * time.Second)
                  (unlistable scenario_os EACCES) (unlistable scenario_os EACCES) 0 0)
               serving_pm).1) = 2%nat.
Proof. vm_compute. repeat split. Qed.

Lemma handleFileEvent_cooldown_witness :
  let t0 := 1700000010 * time.Second in
  let pm' := (@monitorLoop demoLib (t0 + 5 * time.Second)
                (twoNotifications (t0 + 5 * time.Second) scenario_os scenario_os
                   (20 * time.Millisecond) (20 * time.Millisecond))
                serving_pm).1 in
  @handleFileEvent demoLib scenario_os {| ev_Name := "/resourcepacks/foo.zip"; ev_Op := 2 |}
    (t0 + time.Second) 0 serving_pm = (serving_pm, t0 + time.Second) /\
  scansStarted (logger pm') = 1%nat /\
  (@monitorLoop demoLib (t0 + 100 * time.Millisecond)
     (twoNotifications (t0 + 100 * time.Millisecond) scenario_os scenario_os 0 0)
     serving_pm).1 = serving_pm.
Proof.
  intros t0 pm'.
  destruct (@handleFileEvent_cooldown demoLib) as (Hsuppress & Hone & Hnone).
  split; [|split].
  - apply Hsuppress. vm_compute. reflexivity.
  - apply (Hone scenario_os scenario_os (t0 + 5 * time.Second) (t0 + 5 * time.Second)
             (20 * time.Millisecond) (20 * time.Millisecond) serving_pm).
    + reflexivity.
    + vm_compute. discriminate.
    + vm_compute. discriminate.
    + reflexivity.
  - apply Hnone; vm_compute; reflexivity.
Defined.

(** ** The archive of a directory pack *)

Section Materialize.
Context `{GoLib}.

Lemma CreateZipFromDirectory_returns (os : OS) (now : Time) (dirPath packName : string)
    (pm : PacksManager) (path : string) :
  (CreateZipFromDirectory os now dirPath packName pm).2 = Ok path ->
  path = zipPathAt pm packName now.
Proof.
  unfold CreateZipFromDirectory, zipPathAt.
  destruct (os_Create os _); [discriminate|].
  destruct (filepath_Walk os dirPath _ _); simpl; [|discriminate].
  now intros [= <-].
Qed.

Lemma zipPathAt_inj (pm : PacksManager) (packName : string) (now1 now2 : Time) :
  zipPathAt pm packName now1 = zipPathAt pm packName now2 ->
  time.Unix now1 = time.Unix now2.
Proof.
  unfold zipPathAt. intros Heq.
  assert (Htail : forall n, no_sep ("_" +:+ fmt.d n +:+ ".zip") = true).
  { intros n. rewrite !no_sep_append, fmt_d_no_sep. reflexivity. }
  assert (Hlen : forall n, (2 < String.length ("_" +:+ fmt.d n +:+ ".zip"))%nat).
  { intros n. rewrite !length_append. simpl. lia. }
  apply Join_tail_inj in Heq; try apply Htail; try apply Hlen.
  - injection Heq as Heq. apply append_inv_tail in Heq.
    unfold fmt.d in Heq. now apply pretty_Z_inj in Heq.
  - rewrite !rooted_append. destruct (String.eqb packName ""); reflexivity.
Qed.

(** The archive goes to [filepath.Join(tempDir, packName_unixTimestamp.zip)],
    the timestamp counting whole seconds, and nothing else tells two calls
    for one pack name apart: they return distinct paths exactly when they
    read the clock in different seconds. *)
Lemma CreateZipFromDirectory_path (os1 os2 : OS) (now1 now2 : Time)
    (dir1 dir2 packName : string) (pm1 pm2 : PacksManager) (path1 path2 : string) :
  tempDir pm1 = tempDir pm2 ->
  (CreateZipFromDirectory os1 now1 dir1 packName pm1).2 = Ok path1 ->
  (CreateZipFromDirectory os2 now2 dir2 packName pm2).2 = Ok path2 ->
  path1 = filepath.Join (tempDir pm1)
            (packName +:+ "_" +:+ fmt.d (time.Unix now1) +:+ ".zip") /\
  (path1 <> path2 <-> time.Unix now1 <> time.Unix now2).
Proof.
  intros Htemp H1 H2.
  apply CreateZipFromDirectory_returns in H1, H2. subst path1 path2.
  split; [reflexivity|].
  assert (Hpm : zipPathAt pm2 packName now2 = zipPathAt pm1 packName now2).
  { unfold zipPathAt. now rewrite Htemp. }
  rewrite Hpm. split.
  - intros Hne Hsec. apply Hne. unfold zipPathAt. now rewrite Hsec.
  - intros Hne Heq. apply Hne. eapply zipPathAt_inj. exact Heq.
Qed.

(** The path that a call returns is the path at which it has created the
    file: [os.Create] was asked for that path and has not failed. *)
Lemma CreateZipFromDirectory_creates (os : OS) (now : Time) (dirPath packName : string)
    (pm : PacksManager) (path : string) :
  (CreateZipFromDirectory os now dirPath packName pm).2 = Ok path ->
  os_Create os path = None.
Proof.
  intros Hok. pose proof (CreateZipFromDirectory_returns os now dirPath packName pm path Hok)
    as ->.
  unfold CreateZipFromDirectory in Hok. fold (zipPathAt pm packName now) in Hok.
  destruct (os_Create os (zipPathAt pm packName now)); [discriminate|reflexivity].
Qed.

End Materialize.

(** C4 (the code departs from the claim): two requests for [bar] within one
    second, 800 ms apart, on a disk on which a file can be created at one
    path and nowhere else.  Both calls succeed and both return that path:
    each has created, and so truncated, the same file
    [bar_1700000000.zip], where the claim gives any two calls distinct
    paths. *)
Theorem CreateZipFromDirectory_same_second_collides :
  let first := 1700000000 * time.Second + 100 * time.Millisecond in
  let second := 1700000000 * time.Second + 900 * time.Millisecond in
  let path := "/tmp/resourcepack_server/bar_1700000000.zip" in
  let os := creates_only path scenario_os in
  first <> second /\
  (forall p, os_Create os p = None <-> p = path) /\
  (@CreateZipFromDirectory demoLib os first "/resourcepacks/bar" "bar" serving_pm).2
    = Ok path /\
  (@CreateZipFromDirectory demoLib os second "/resourcepacks/bar" "bar" serving_pm).2
    = Ok path.
Proof.
  intros first second path os. split; [vm_compute; discriminate|]. split.
  - intros p. unfold os, creates_only. cbn [os_Create].
    destruct (String.eqb_spec p path) as [->|Hne]; split; congruence.
  - split; vm_compute; reflexivity.
Qed.

(** ** Readers beside a scan *)

Section Atomicity.
Context `{GoLib}.
Variables (os : OS) (now : Time) (pm0 : PacksManager).

Lemma scanPacks_parts :
  scanPacks os now pm0 =
  let pm1 := scanRoot os (scanBegin pm0) in
  match os_ReadDir os (packsDirectory pm1) with
  | Err err => (pm1, Some (Wrapped "读取目录失败" err))
  | Ok entries =>
      (scanEnd now (dom (packs pm0)) (fold_left (scanEntry os) entries pm1), None)
  end.
Proof. reflexivity. Qed.

Lemma scanner_step_scanAt m pm sc m' pm' sc' :
  scanner_step os now m pm sc m' pm' sc' -> scanAt os now pm0 sc pm -> scanAt os now pm0 sc' pm'.
Proof.
  intros Hstep Hat. destruct Hstep; simpl in *.
  - exact Hat.
  - subst pm. split; reflexivity.
  - destruct Hat as [-> ->]. split; reflexivity.
  - destruct Hat as [-> ->]. split; [reflexivity|]. exists []. split; [assumption|reflexivity].
  - destruct Hat as [-> ->]. rewrite scanPacks_parts. simpl.
    match goal with Herr : os_ReadDir _ _ = Err _ |- _ => rewrite Herr end. reflexivity.
  - destruct Hat as [-> (done_ & Hread & ->)]. split; [reflexivity|].
    exists (done_ ++ [entry]). rewrite <- app_assoc. split; [exact Hread|].
    now rewrite fold_left_app.
  - destruct Hat as [-> (done_ & Hread & ->)]. rewrite app_nil_r in Hread.
    rewrite scanPacks_parts. simpl. rewrite Hread. reflexivity.
  - exact Hat.
Qed.

Lemma readLocks_insert (rs : list ReadCall) (i : nat) (r r' : ReadCall) :
  rs !! i = Some r ->
  (readLocks (<[i := r']> rs) + (if holdsRLock r then 1 else 0) =
   readLocks rs + (if holdsRLock r' then 1 else 0))%nat.
Proof.
  unfold readLocks. revert i. induction rs as [|x rs IH]; intros i Hi; [discriminate|].
  destruct i as [|i]; simpl in *.
  - injection Hi as ->. destruct (holdsRLock r), (holdsRLock r'); simpl; lia.
  - specialize (IH i Hi). destruct (holdsRLock x); simpl; lia.
Qed.

Lemma readLocks_zero (rs : list ReadCall) (r : ReadCall) :
  readLocks rs = 0%nat -> In r rs -> holdsRLock r = false.
Proof.
  unfold readLocks. induction rs as [|x rs IH]; simpl; [contradiction|].
  destruct (holdsRLock x) eqn:Hx; simpl; [discriminate|].
  intros Hz [->|Hin]; [exact Hx|now apply IH].
Qed.

(** A reader that holds no lock keeps its view whatever the manager becomes. *)
Lemma viewOf_unlocked (m shared1 shared2 : gmap string ResourcePack) (r : ReadCall) :
  holdsRLock r = false -> viewOf m shared1 r -> viewOf m shared2 r.
Proof. destruct r; simpl; try discriminate; auto. Qed.

(** While no scan holds the lock the manager is the one before the scan or
    the one it returns. *)
Lemma unlocked_old_or_new (sc : ScanCall) (pm : PacksManager) :
  scanAt os now pm0 sc pm -> holdsLock sc = false ->
  pm = pm0 \/ pm = (scanPacks os now pm0).1.
Proof.
  destruct sc; simpl; try discriminate; intros Hat _.
  - now left.
  - right. now rewrite <- Hat.
Qed.

Lemma reader_step_view (pm : PacksManager) m r m' r' (view : gmap string ResourcePack) :
  reader_step pm m r m' r' ->
  holdsRLock r = true ->
  viewOf view (packs pm) r -> viewOf view (packs pm) r'.
Proof.
  intros Hstep Hheld Hview. destruct Hstep; simpl in *; try discriminate.
  - destruct Hview as (Hm & part & Hsub & Hdom & Hperm). split; [exact Hm|].
    exists (<[name := pack]> part). subst view. split; [|split].
    + now apply insert_subseteq_l.
    + rewrite dom_insert_L. now rewrite Hdom.
    + rewrite map_to_list_insert.
      * rewrite fmap_cons. simpl. rewrite <- Hperm.
        symmetry. apply Permutation_cons_append.
      * apply not_elem_of_dom. now rewrite Hdom.
  - destruct Hview as (Hm & part & Hsub & Hdom & Hperm). split; [exact Hm|].
    assert (part = view) as <-; [|exact Hperm].
    apply subseteq_dom_eq; [exact Hsub|]. rewrite Hdom, <- Hm. assumption.
  - apply Hview.
  - split; [exact Hview|]. now rewrite Hview.
  - apply Hview.
Qed.

Lemma invariant_step (s s' : System) : invariant os now pm0 s -> step os now s s' -> invariant os now pm0 s'.
Proof.
  intros (Hat & Hw & Hexcl & Hcount & Hviews) Hstep.
  destruct Hstep as [m pm sc rs m' pm' sc' Hsc | m pm sc rs i r m' r' Hi Hr]; simpl in *.
  - pose proof (scanner_step_scanAt _ _ _ _ _ _ Hsc Hat) as Hat'.
    repeat split.
    + exact Hat'.
    + destruct Hsc; simpl in *; congruence.
    + destruct Hsc; simpl in *; auto; discriminate.
    + destruct Hsc; simpl in *; auto.
    + assert (Hcases : (m' = m /\ writing m = true) \/ pm' = pm).
      { destruct Hsc; simpl in *; auto. }
      destruct Hcases as [[-> Hheld]| ->]; [|exact Hviews].
      specialize (Hexcl Hheld). rewrite Hexcl in Hcount.
      rewrite List.Forall_forall in *. intros r Hin.
      pose proof (readLocks_zero rs r Hcount Hin) as Hfree.
      destruct (Hviews r Hin) as [Hv|Hv]; [left|right];
        eapply viewOf_unlocked; eassumption.
  - pose proof (readLocks_insert rs i r r' Hi) as Hlocks.
    assert (Hin : In r rs) by (apply list_elem_of_In; eapply list_elem_of_lookup_2; eassumption).
    rewrite List.Forall_forall in Hviews. pose proof (Hviews r Hin) as Hview.
    assert (Hrest : forall view, viewOf view (packs pm) r -> holdsRLock r = true ->
                                 viewOf view (packs pm) r').
    { intros view Hv Hheld. eapply reader_step_view; eassumption. }
    repeat split.
    + exact Hat.
    + destruct Hr; simpl in *; assumption.
    + destruct Hr; simpl in *; try assumption; try discriminate.
      * intros Htrue. specialize (Hexcl Htrue). rewrite <- Hcount in Hexcl.
        rewrite Htrue in *. simpl in Hlocks. lia.
      * intros Htrue. specialize (Hexcl Htrue). rewrite <- Hcount in Hexcl.
        rewrite Htrue in *. simpl in Hlocks. lia.
    + destruct Hr; simpl in *; lia.
    + apply Forall_insert; [now apply List.Forall_forall|].
      destruct (holdsRLock r) eqn:Hheld.
      * destruct Hview as [Hv|Hv]; [left|right]; now apply Hrest.
      * (* the reader takes the read lock: the scanner does not hold the lock *)
        assert (Hfree : writing m = false) by (destruct Hr; simpl in *; congruence).
        rewrite Hw in Hfree.
        destruct (unlocked_old_or_new sc pm Hat Hfree) as [->| ->];
          [left|right]; destruct Hr; simpl in *; try discriminate.
        -- split; [reflexivity|]. exists ∅. split; [apply map_empty_subseteq|].
           split; [apply dom_empty_L|]. now rewrite map_to_list_empty.
        -- reflexivity.
        -- split; [reflexivity|]. exists ∅. split; [apply map_empty_subseteq|].
           split; [apply dom_empty_L|]. now rewrite map_to_list_empty.
        -- reflexivity.
Qed.

Lemma invariant_initial (rs : list ReadCall) :
  List.Forall notStarted rs -> invariant os now pm0 (initial pm0 rs).
Proof.
  intros Hrs. unfold invariant, initial. simpl.
  split; [reflexivity|]. split; [reflexivity|]. split; [reflexivity|]. split.
  - unfold readLocks. induction Hrs as [|r rs Hr _ IH]; [reflexivity|].
    simpl. destruct r; simpl in *; try contradiction; exact IH.
  - eapply List.Forall_impl; [|exact Hrs]. intros r Hr. left.
    destruct r; simpl in *; try contradiction; exact I.
Qed.

Lemma invariant_reachable (rs : list ReadCall) (s : System) :
  List.Forall notStarted rs -> rtc (step os now) (initial pm0 rs) s -> invariant os now pm0 s.
Proof.
  intros Hrs Hrun.
  eapply (rtc_ind_r (invariant os now pm0) (initial pm0 rs)); [now apply invariant_initial| |exact Hrun].
  intros s1 s2 _ Hstep IH. eapply invariant_step; eassumption.
Qed.

(** C9: a reader that runs beside a scan sees the index of before the scan
    or the index the scan leaves, whole.  In every interleaving of the
    statements of one scan and of any readers, a finished [GetAllPacks] has
    returned the packs of one of the two indexes, each once, and a finished
    [GetPack] has returned what one of the two holds under its name; and no
    reader ever holds the read lock while the scan holds the lock. *)
Theorem readers_see_old_or_new (rs : list ReadCall) (s : System) :
  List.Forall notStarted rs ->
  rtc (step os now) (initial pm0 rs) s ->
  let pm1 := (scanPacks os now pm0).1 in
  (writing (mu s) = true -> readLocks (readers s) = 0%nat) /\
  (forall out, In (All_done out) (readers s) ->
     Permutation out (GetAllPacks pm0) \/ Permutation out (GetAllPacks pm1)) /\
  (forall name found, In (Get_done name found) (readers s) ->
     found = GetPack pm0 name \/ found = GetPack pm1 name).
Proof.
  intros Hrs Hrun pm1.
  destruct (invariant_reachable rs s Hrs Hrun) as (_ & _ & Hexcl & Hcount & Hviews).
  rewrite List.Forall_forall in Hviews. split; [|split].
  - intros Hheld. rewrite Hcount. now apply Hexcl.
  - intros out Hin. apply (Hviews _ Hin).
  - intros name found Hin. apply (Hviews _ Hin).
Qed.

End Atomicity.

Lemma readers_see_old_or_new_witness :
  let os := scenario_os in
  let now := 1700000100 * time.Second in
  let pm1 := (@scanPacks demoLib os now serving_pm).1 in
  exists s out,
    rtc (@step demoLib os now) (initial serving_pm [All_start; Get_start "foo"]) s /\
    scanner s = S_done None /\
    readers s = [All_done out; Get_done "foo" (Some foo_pack)] /\
    List.map Name out = ["bar"; "foo"] /\
    (Permutation out (GetAllPacks serving_pm) \/ Permutation out (GetAllPacks pm1)) /\
    (Some foo_pack = GetPack serving_pm "foo" \/ Some foo_pack = GetPack pm1 "foo").
Proof.
  intros os now.
  assert (Hrun : exists s out,
    rtc (@step demoLib os now) (initial serving_pm [All_start; Get_start "foo"]) s /\
    scanner s = S_done None /\
    readers s = [All_done out; Get_done "foo" (Some foo_pack)] /\
    List.map Name out = ["bar"; "foo"]).
  { eexists. eexists. split.
    - unfold initial.
      (* GetPack("foo") runs first *)
      eapply rtc_l. { eapply (step_reader _ _ _ _ _ _ 1%nat); [reflexivity|apply get_RLock]. }
      eapply rtc_l. { eapply (step_reader _ _ _ _ _ _ 1%nat); [reflexivity|apply get_read]. }
      eapply rtc_l. { eapply (step_reader _ _ _ _ _ _ 1%nat); [reflexivity|apply get_RUnlock]. }
      (* the scan *)
      eapply rtc_l. { apply step_scanner. apply scan_Lock. }
      eapply rtc_l. { apply step_scanner. apply scan_reset. }
      eapply rtc_l. { apply step_scanner. apply scan_root. }
      eapply rtc_l. { apply step_scanner. apply scan_ReadDir_ok. reflexivity. }
      eapply rtc_l. { apply step_scanner. apply scan_entry. }
      eapply rtc_l. { apply step_scanner. apply scan_entry. }
      eapply rtc_l. { apply step_scanner. apply scan_end. }
      eapply rtc_l. { apply step_scanner. apply scan_Unlock. }
      (* GetAllPacks runs after it *)
      eapply rtc_l. { eapply (step_reader _ _ _ _ _ _ 0%nat); [reflexivity|apply all_RLock]. }
      eapply rtc_l.
      { eapply (step_reader _ _ _ _ _ _ 0%nat); [reflexivity|].
        eapply (all_next _ _ _ _ "bar"); [apply not_elem_of_empty|vm_compute; reflexivity]. }
      eapply rtc_l.
      { eapply (step_reader _ _ _ _ _ _ 0%nat); [reflexivity|].
        eapply (all_next _ _ _ _ "foo");
          [refine (bool_decide_unpack _ _); vm_compute; exact I|vm_compute; reflexivity]. }
      eapply rtc_l.
      { eapply (step_reader _ _ _ _ _ _ 0%nat); [reflexivity|].
        apply all_end. refine (bool_decide_unpack _ _). vm_compute. exact I. }
      eapply rtc_l. { eapply (step_reader _ _ _ _ _ _ 0%nat); [reflexivity|apply all_RUnlock]. }
      apply rtc_refl.
    - split; [reflexivity|]. split; [reflexivity|]. vm_compute. reflexivity. }
  intros pm1. destruct Hrun as (s & out & Hrun & Hsc & Hrs & Hnames).
  exists s, out. split; [exact Hrun|]. split; [exact Hsc|]. split; [exact Hrs|].
  split; [exact Hnames|].
  destruct (@readers_see_old_or_new demoLib os now serving_pm
              [All_start; Get_start "foo"] s) as (_ & Hall & Hget).
  - repeat constructor.
  - exact Hrun.
  - split.
    + apply Hall. rewrite Hrs. now left.
    + apply (Hget "foo"). rewrite Hrs. right. now left.
Defined.
